(** * Quanvolution tutorial: the patch-wise quantum convolution [quanv]

    A shallow embedding of [tutorial_quanvolution.py]:

    - NumPy arrays of rank 3 are a shape together with a row-major buffer;
      indexing checks every axis and raises [IndexError] as NumPy does.
    - Python objects live in a store ([heap]); [np.zeros] allocates a fresh
      reference and [out[...] = v] updates the store in place.
    - The script's effects (store, module-level [rand_params], files written
      by [np.save]) are threaded through a state-and-exception monad [M]; an
      exception leaves the store as it was when it was raised.
    - PennyLane is a library the script calls; its operations are the
      interface [QDevice].  The data-flow results hold for every device; the
      numeric results are proved for [exact_device], the state-vector
      semantics of the gates over the real numbers. *)

From Stdlib Require Import Reals Lra Lia.
From stdpp Require Import gmap strings list fin_maps pretty.

(** ** Exceptions and results *)

Abbreviation loc := positive.

Inductive exn : Type :=
  | IndexError (index axis size : nat)
      (* NumPy: "index i is out of bounds for axis a with size n" *)
  | ListIndexError
      (* Python: "list index out of range" *)
  | FileNotFoundError (path : string)
      (* raised by [np.load] on a missing file *)
  | InvalidReference (l : loc).
      (* a reference that names no object; a Python program never holds one *)

Inductive result (A : Type) : Type :=
  | Ok (a : A)
  | Raise (e : exn).
Arguments Ok {A} a.
Arguments Raise {A} e.

#[global] Instance result_ret : MRet result := λ A a, Ok a.
#[global] Instance result_bind : MBind result := λ A B f m,
  match m with
  | Ok a => f a
  | Raise e => Raise e
  end.

(** The text Python prints for an uncaught exception. *)
Definition exn_message (e : exn) : string :=
  match e with
  | IndexError i a n =>
      "index " +:+ pretty i +:+ " is out of bounds for axis " +:+ pretty a
        +:+ " with size " +:+ pretty n
  | ListIndexError => "list index out of range"
  | FileNotFoundError p => "[Errno 2] No such file or directory: '" +:+ p +:+ "'"
  | InvalidReference _ => "invalid reference"
  end.

(** ** Python's [range] and list indexing *)

Definition range (start stop step : nat) : list nat :=
  (λ i, start + step * i) <$> seq 0 ((stop - start + (step - 1)) / step).

Definition list_getitem {A} (l : list A) (i : nat) : result A :=
  match l !! i with
  | Some x => Ok x
  | None => Raise ListIndexError
  end.

(** ** The quantum library as an interface *)

Class QDevice : Type := {
  scalar : Type;
  (** the fill value of [np.zeros] *)
  zero : scalar;
  (** [np.pi * x] *)
  pi_mul : scalar → scalar;
  (** the register of [qml.device("default.qubit", wires=4)] *)
  qstate : Type;
  ground : qstate;
  (** [qml.RY(angle, wires=j)] *)
  RY : scalar → nat → qstate → qstate;
  (** [RandomLayers(weights, wires=...)] *)
  RandomLayers : list (list scalar) → list nat → qstate → qstate;
  (** [qml.expval(qml.PauliZ(j))] *)
  expval_PauliZ : nat → qstate → scalar;
}.

Section Script.
Context `{QDevice}.

(** ** Rank-3 arrays *)

Record ndarray : Type := NDArray {
  shape : nat * nat * nat;
  data : list scalar;
}.

Definition size_of (s : nat * nat * nat) : nat :=
  let '(h, w, c) := s in h * w * c.

(** An array's buffer has as many cells as its shape says. *)
Definition wf_ndarray (a : ndarray) : Prop :=
  length (data a) = size_of (shape a).

Definition np_zeros (s : nat * nat * nat) : ndarray :=
  NDArray s (replicate (size_of s) zero).

(** Row-major offset of [a[i, j, k]], after NumPy's per-axis bounds check. *)
Definition offset (s : nat * nat * nat) (i j k : nat) : result nat :=
  let '(h, w, c) := s in
  if decide (h ≤ i) then Raise (IndexError i 0 h)
  else if decide (w ≤ j) then Raise (IndexError j 1 w)
  else if decide (c ≤ k) then Raise (IndexError k 2 c)
  else Ok ((i * w + j) * c + k).

Definition nd_get (a : ndarray) (i j k : nat) : result scalar :=
  o ← offset (shape a) i j k;
  list_getitem (data a) o.

Definition nd_set (a : ndarray) (i j k : nat) (v : scalar) : result ndarray :=
  o ← offset (shape a) i j k;
  Ok (NDArray (shape a) (<[o := v]> (data a))).

(** ** Program state *)

(** A batch is what [np.asarray] makes of a list of equally shaped arrays,
    and what [np.save] writes to a file. *)
Definition batch : Type := list ndarray.

Record state : Type := State {
  (** the module-level [rand_params], of shape [(n_layers, 4)] *)
  rand_params : list (list scalar);
  (** the arrays the program holds references to *)
  heap : gmap loc ndarray;
  (** the [.npy] files on disk, by path *)
  files : gmap string batch;
}.

Definition set_heap (f : gmap loc ndarray → gmap loc ndarray) (σ : state) : state :=
  State (rand_params σ) (f (heap σ)) (files σ).

Definition set_files (f : gmap string batch → gmap string batch) (σ : state) : state :=
  State (rand_params σ) (heap σ) (f (files σ)).

Definition M (A : Type) : Type := state → result A * state.

#[global] Instance M_ret : MRet M := λ A a σ, (Ok a, σ).
#[global] Instance M_bind : MBind M := λ A B f m σ,
  match m σ with
  | (Ok a, σ') => f a σ'
  | (Raise e, σ') => (Raise e, σ')
  end.

Definition lift {A} (r : result A) : M A := λ σ, (r, σ).

Definition deref (l : loc) : M ndarray := λ σ,
  match heap σ !! l with
  | Some a => (Ok a, σ)
  | None => (Raise (InvalidReference l), σ)
  end.

(** [np.zeros(s)]: a new array object. *)
Definition zeros (s : nat * nat * nat) : M loc := λ σ,
  let l := fresh (dom (heap σ)) in
  (Ok l, set_heap <[l := np_zeros s]> σ).

(** [a[i, j, k]] *)
Definition getitem (l : loc) (i j k : nat) : M scalar :=
  a ← deref l;
  lift (nd_get a i j k).

Definition store (l : loc) (a : ndarray) : M unit := λ σ,
  (Ok tt, set_heap <[l := a]> σ).

(** [a[i, j, k] = v] *)
Definition setitem (l : loc) (i j k : nat) (v : scalar) : M unit :=
  a ← deref l;
  a' ← lift (nd_set a i j k v);
  store l a'.

(** [for x in xs: body(x)] *)
Fixpoint for_ {A} (xs : list A) (body : A → M unit) : M unit :=
  match xs with
  | [] => mret tt
  | x :: xs' => body x;; for_ xs' body
  end.

(** ** The circuit (lines 154-164) *)

(** [for j in range(4): qml.RY(np.pi * phi[j], wires=j)] *)
Fixpoint encode (phi : list scalar) (js : list nat) (ψ : qstate) : result qstate :=
  match js with
  | [] => Ok ψ
  | j :: js' =>
      x ← list_getitem phi j;
      encode phi js' (RY (pi_mul x) j ψ)
  end.

Definition circuit_fn (params : list (list scalar)) (phi : list scalar)
    : result (list scalar) :=
  ψ ← encode phi (range 0 4 1) ground;
  let ψ' := RandomLayers params (range 0 4 1) ψ in
  Ok ((λ j, expval_PauliZ j ψ') <$> range 0 4 1).

(** The QNode reads the module-level [rand_params] when it is called. *)
Definition circuit (phi : list scalar) : M (list scalar) := λ σ,
  (circuit_fn (rand_params σ) phi, σ).

(** ** The convolution (lines 183-202) *)

Definition quanv (image : loc) : M loc :=
  out ← zeros (14, 14, 4);
  for_ (range 0 28 2) (λ j,
    for_ (range 0 28 2) (λ k,
      p0 ← getitem image j k 0;
      p1 ← getitem image j (k + 1) 0;
      p2 ← getitem image (j + 1) k 0;
      p3 ← getitem image (j + 1) (k + 1) 0;
      q_results ← circuit [p0; p1; p2; p3];
      for_ (range 0 4 1) (λ c,
        v ← lift (list_getitem q_results c);
        setitem out (j / 2) (k / 2) c v)));;
  mret out.

(** ** The pre-processing driver (lines 218-240)

    The data set is an input: [train_images] and [test_images] are the
    references of the images that iterating over the two arrays yields.
    Progress output is left out. *)

Definition SAVE_PATH : string := "my_path/".

(** Line 104: the setting the script ships with. *)
Definition PREPROCESS : bool := true.

(** [np.asarray(q_images)]: copy the listed arrays into one batch. *)
Fixpoint np_asarray (ls : list loc) : M batch :=
  match ls with
  | [] => mret []
  | l :: ls' => a ← deref l; b ← np_asarray ls'; mret (a :: b)
  end.

Definition np_save (path : string) (b : batch) : M unit := λ σ,
  (Ok tt, set_files <[path := b]> σ).

Definition np_load (path : string) : M batch := λ σ,
  match files σ !! path with
  | Some b => (Ok b, σ)
  | None => (Raise (FileNotFoundError path), σ)
  end.

(** [q_images = []; for img in images: q_images.append(quanv(img))] *)
Fixpoint quanv_all (images : list loc) : M (list loc) :=
  match images with
  | [] => mret []
  | img :: rest => q ← quanv img; qs ← quanv_all rest; mret (q :: qs)
  end.

(** From [if PREPROCESS == True:] to the two [np.load] calls, for either
    setting of the flag. *)
Definition preprocess_driver (preprocess : bool) (train_images test_images : list loc)
    : M (batch * batch) :=
  (if preprocess then
     q_train ← quanv_all train_images;
     q_train_images ← np_asarray q_train;
     q_test ← quanv_all test_images;
     q_test_images ← np_asarray q_test;
     np_save (SAVE_PATH +:+ "q_train_images.npy") q_train_images;;
     np_save (SAVE_PATH +:+ "q_test_images.npy") q_test_images
   else mret tt);;
  q_train_images ← np_load (SAVE_PATH +:+ "q_train_images.npy");
  q_test_images ← np_load (SAVE_PATH +:+ "q_test_images.npy");
  mret (q_train_images, q_test_images).

End Script.

(** ** The exact device: state vectors over the reals

    [default.qubit] simulates the register as a vector of 16 complex
    amplitudes, wire 0 being the most significant bit of the basis index.  The
    gates below are PennyLane's matrices; floating-point rounding is left out:
    scalars are real numbers. *)

Module Exact.
Local Open Scope R_scope.

Definition C : Type := R * R.

Definition Cadd (x y : C) : C := (x.1 + y.1, x.2 + y.2).
Definition Cmul (x y : C) : C := (x.1 * y.1 - x.2 * y.2, x.1 * y.2 + x.2 * y.1).
(** [|z|²] *)
Definition Cnorm2 (z : C) : R := z.1 * z.1 + z.2 * z.2.

#[global] Arguments Cadd : simpl never.
#[global] Arguments Cmul : simpl never.
#[global] Arguments Cnorm2 : simpl never.

Definition amplitudes : Type := nat → C.

(** [|0000⟩] *)
Definition ket0 : amplitudes := λ i,
  match i with
  | O => (1, 0)
  | S _ => (0, 0)
  end.

(** The value of wire [w] in basis state [i]. *)
Definition bit (w i : nat) : bool := Nat.testbit i (3 - w).

(** The basis state that differs from [i] on wire [w] only. *)
Definition flip (w i : nat) : nat := Nat.lxor i (2 ^ (3 - w)).

Record matrix2 : Type := Matrix2 { m00 : C; m01 : C; m10 : C; m11 : C }.

Definition apply_1q (u : matrix2) (w : nat) (ψ : amplitudes) : amplitudes := λ i,
  if bit w i
  then Cadd (Cmul (m10 u) (ψ (flip w i))) (Cmul (m11 u) (ψ i))
  else Cadd (Cmul (m00 u) (ψ i)) (Cmul (m01 u) (ψ (flip w i))).

Inductive axis : Type := RotX | RotY | RotZ.

(** [qml.RX], [qml.RY], [qml.RZ] *)
Definition rot_matrix (g : axis) (θ : R) : matrix2 :=
  let c := cos (θ / 2) in
  let s := sin (θ / 2) in
  match g with
  | RotX => Matrix2 (c, 0) (0, - s) (0, - s) (c, 0)
  | RotY => Matrix2 (c, 0) (- s, 0) (s, 0) (c, 0)
  | RotZ => Matrix2 (c, - s) (0, 0) (0, 0) (c, s)
  end.

Definition rot (g : axis) (θ : R) (w : nat) : amplitudes → amplitudes :=
  apply_1q (rot_matrix g θ) w.

(** [qml.CNOT(wires=[c, t])] *)
Definition cnot (c t : nat) (ψ : amplitudes) : amplitudes := λ i,
  ψ (if bit c i then flip t i else i).

Definition sum16 (f : nat → R) : R := foldr Rplus 0 (f <$> seq 0 16).

(** [⟨ψ|Z_w|ψ⟩] *)
Definition expZ (w : nat) (ψ : amplitudes) : R :=
  sum16 (λ i, (if bit w i then -1 else 1) * Cnorm2 (ψ i)).

(** One pass of the template's [while i < n_rots] loop makes one seeded draw:
    a rotation about a random axis on a random wire, which uses the next
    weight, or the entangler on two distinct random wires.  Wires are drawn
    by position in the template's [wires] argument. *)
Inductive decision : Type :=
  | Rotate (g : axis) (pos : nat)
  | Entangle (pos_c pos_t : nat).

(** The register is in the state [|0000⟩]. *)
Definition is_ket0 (ψ : amplitudes) : Prop :=
  ψ O = (1, 0) ∧ ∀ i, (0 < i < 16)%nat → ψ i = (0, 0).

Definition valid_decision (n_wires : nat) (d : decision) : Prop :=
  match d with
  | Rotate _ p => (p < n_wires)%nat
  | Entangle pc pt => (pc < n_wires)%nat ∧ (pt < n_wires)%nat ∧ pc ≠ pt
  end.

(** One layer: follow the draws until every weight of the row is used. *)
Fixpoint random_layer (wires : list nat) (row : list R) (ds : list decision)
    (ψ : amplitudes) : list decision * amplitudes :=
  match ds with
  | [] => ([], ψ)
  | d :: ds' =>
      match row with
      | [] => (ds, ψ)
      | θ :: row' =>
          match d with
          | Rotate g p => random_layer wires row' ds' (rot g θ (nth p wires O) ψ)
          | Entangle pc pt =>
              if decide (1 < length wires)%nat
              then random_layer wires row ds' (cnot (nth pc wires O) (nth pt wires O) ψ)
              else random_layer wires row ds' ψ
          end
      end
  end.

(** The layers share one generator: each continues the draws of the last. *)
Fixpoint random_layers (wires : list nat) (weights : list (list R)) (ds : list decision)
    (ψ : amplitudes) : amplitudes :=
  match weights with
  | [] => ψ
  | row :: weights' =>
      let '(ds', ψ') := random_layer wires row ds ψ in
      random_layers wires weights' ds' ψ'
  end.

(** The device, for the draws [ds] that the template's seed produces.  The
    template seeds a new generator at every call, so every evaluation of the
    circuit follows the same draws. *)
Definition exact_device (ds : list decision) : QDevice := {|
  scalar := R;
  zero := 0;
  pi_mul := λ x, PI * x;
  qstate := amplitudes;
  ground := ket0;
  RY := rot RotY;
  RandomLayers := λ weights wires, random_layers wires weights ds;
  expval_PauliZ := expZ;
|}.

(** A sample of draws for one layer of four rotations. *)
Definition sample_draws : list decision :=
  [Rotate RotY 2; Entangle 0 3; Rotate RotX 0; Rotate RotZ 1; Entangle 2 1; Rotate RotY 3].

End Exact.

(** ** Sample inputs *)

(** A uniform image of shape [(h, w, c)]. *)
Definition uniform_image `{QDevice} (h w c : nat) (v : scalar) : ndarray :=
  NDArray (h, w, c) (replicate (h * w * c) v).

(** The state of a run that holds one image, at reference 1, and no files. *)
Definition initial_state `{QDevice} (params : list (list scalar)) (image : ndarray) : state :=
  State params {[ 1%positive := image ]} ∅.

(** ** Diagnostics *)

Definition lower_ascii (a : Ascii.ascii) : Ascii.ascii :=
  let n := Ascii.nat_of_ascii a in
  if (65 <=? n) && (n <=? 90) then Ascii.ascii_of_nat (n + 32) else a.

Fixpoint lower (s : string) : string :=
  match s with
  | EmptyString => EmptyString
  | String a s' => String (lower_ascii a) (lower s')
  end.

(** [needle in text.lower()] *)
Definition mentions (needle text : string) : bool :=
  match String.index 0 needle (lower text) with
  | Some _ => true
  | None => false
  end.

(** A diagnostic that tells the user to turn pre-processing on. *)
Definition cache_hint (e : exn) : bool := mentions "preprocess" (exn_message e).

(** ** What one output cell should hold *)

Section Cells.
Context `{QDevice}.

(** The four pixels of the 2x2 patch whose top-left corner is [(j, k)], in
    the order in which [quanv] lists them. *)
Definition patch (a : ndarray) (j k : nat) : result (list scalar) :=
  p0 ← nd_get a j k 0;
  p1 ← nd_get a j (k + 1) 0;
  p2 ← nd_get a (j + 1) k 0;
  p3 ← nd_get a (j + 1) (k + 1) 0;
  Ok [p0; p1; p2; p3].

(** Channel [c] of the circuit's output on the patch at [(2r, 2s)]. *)
Definition cell_value (params : list (list scalar)) (a : ndarray) (r s c : nat)
    : result scalar :=
  phi ← patch a (2 * r) (2 * s);
  q ← circuit_fn params phi;
  list_getitem q c.

(** The image is large enough for every index [quanv] uses. *)
Definition covers_28 (a : ndarray) : Prop :=
  let '(h, w, c) := shape a in 28 ≤ h ∧ 28 ≤ w ∧ 1 ≤ c.

Definition is_index_error (e : exn) : Prop :=
  match e with
  | IndexError _ _ _ => True
  | _ => False
  end.

(** Loop progress: the cells written once the row loop is in its [n]-th
    pass, the column loop in its [m]-th and the channel loop in its [t]-th. *)
Definition written (n m t : nat) (r s c : nat) : Prop :=
  r < n ∨ (r = n ∧ (s < m ∨ (s = m ∧ c < t))).

(** The store during the loops: [σ] with the output array at [l]. *)
Definition filled (σ : state) (a : ndarray) (l : loc) (P : nat → nat → nat → Prop)
    (σ' : state) : Prop :=
  ∃ o, σ' = set_heap <[l := o]> σ ∧ shape o = (14, 14, 4) ∧ wf_ndarray o ∧
    ∀ r s c, r < 14 → s < 14 → c < 4 → P r s c →
      nd_get o r s c = cell_value (rand_params σ) a r s c.

(** [σ'] differs from [σ] at most in the object at [l]. *)
Definition only_changes (l : loc) (σ σ' : state) : Prop :=
  rand_params σ' = rand_params σ ∧ files σ' = files σ ∧
  ∀ l', l' ≠ l → heap σ' !! l' = heap σ !! l'.

(** The body of the column loop of [quanv]: one patch. *)
Definition quanv_patch (image out : loc) (j k : nat) : M unit :=
  p0 ← getitem image j k 0;
  p1 ← getitem image j (k + 1) 0;
  p2 ← getitem image (j + 1) k 0;
  p3 ← getitem image (j + 1) (k + 1) 0;
  q_results ← circuit [p0; p1; p2; p3];
  for_ (range 0 4 1) (λ c,
    v ← lift (list_getitem q_results c);
    setitem out (j / 2) (k / 2) c v).

End Cells.

(** ** Sample runs *)

Definition train_file : string := SAVE_PATH +:+ "q_train_images.npy".
Definition test_file : string := SAVE_PATH +:+ "q_test_images.npy".

Module Samples.
Import Exact.
Local Open Scope R_scope.

#[export] Instance sample_device : QDevice := exact_device sample_draws.

(** One layer of four angles in [0, 2π). *)
Definition sample_params : list (list R) := [[3.448; 4.494; 3.787; 3.424]].

Definition zero_params : list (list R) := [[0; 0; 0; 0]].

Definition black (h w c : nat) : @ndarray sample_device := uniform_image h w c 0.

(** A run that starts with [image] at reference 1 and no file on disk. *)
Definition run_state (params : list (list R)) (image : @ndarray sample_device)
    : @state sample_device :=
  initial_state params image.

(** The black 28x28x1 image with its last pixel set to white. *)
Definition black_but_last : @ndarray sample_device :=
  NDArray (28, 28, 1)%nat (<[783%nat := 1]> (replicate 784 0)).

End Samples.

(** ** Further definitions for the properties of the rest of the script *)

Section MoreCells.
Context `{QDevice}.

(** [o] is the tensor of the image [a]: a 14x14x4 array whose cell
    [(r, s, c)] holds channel [c] of the circuit on the patch at [(2r, 2s)]. *)
Definition quanv_of (params : list (list scalar)) (a o : ndarray) : Prop :=
  shape o = (14, 14, 4) ∧ wf_ndarray o ∧
  ∀ r s c, r < 14 → s < 14 → c < 4 →
    nd_get o r s c = cell_value params a r s c.

(** The reference [l] holds an image that [quanv] can process. *)
Definition holds_image (σ : state) (l : loc) (a : ndarray) : Prop :=
  heap σ !! l = Some a ∧ wf_ndarray a ∧ covers_28 a.

(** [σ'] has the parameters, the files and every object of [σ]; it may hold
    new objects. *)
Definition extends (σ σ' : state) : Prop :=
  rand_params σ' = rand_params σ ∧ files σ' = files σ ∧
  ∀ l, is_Some (heap σ !! l) → heap σ' !! l = heap σ !! l.

(** The block under [if PREPROCESS == True:] (lines 218-235). *)
Definition compute_and_save (train_images test_images : list loc) : M unit :=
  q_train ← quanv_all train_images;
  q_train_images ← np_asarray q_train;
  q_test ← quanv_all test_images;
  q_test_images ← np_asarray q_test;
  np_save (SAVE_PATH +:+ "q_train_images.npy") q_train_images;;
  np_save (SAVE_PATH +:+ "q_test_images.npy") q_test_images.

(** The two [np.load] calls (lines 239-240). *)
Definition load_features : M (batch * batch) :=
  q_train_images ← np_load (SAVE_PATH +:+ "q_train_images.npy");
  q_test_images ← np_load (SAVE_PATH +:+ "q_test_images.npy");
  mret (q_train_images, q_test_images).

End MoreCells.

(** ** Loading the data set (lines 115-130)

    [mnist_dataset.load_data()] is an input: arrays of bytes of shape
    [(N, h, w)], held as the list of their [N] images. *)

Module Dataset.
Import Exact.

(** One image of the raw data set: [h x w] bytes, row-major. *)
Record raw_image : Type := RawImage {
  raw_shape : nat * nat;
  raw_pixels : list Byte.byte;
}.

Definition wf_raw (r : raw_image) : Prop :=
  length (raw_pixels r) = (raw_shape r).1 * (raw_shape r).2.

(** One image after the division: [h x w] floats. *)
Record float_image : Type := FloatImage {
  float_shape : nat * nat;
  float_pixels : list R;
}.

(** [images[:n]] *)
Definition reduce_size {A} (n : nat) (images : list A) : list A := take n images.

(** [x / 255] for a byte [x] *)
Definition div_255 (x : Byte.byte) : R := (IZR (Z.of_N (Byte.to_N x)) / 255)%R.

(** [images / 255] *)
Definition normalize (images : list raw_image) : list float_image :=
  (λ r, FloatImage (raw_shape r) (div_255 <$> raw_pixels r)) <$> images.

Section Prepare.
Context (ds : list decision).

(** [images[..., tf.newaxis]]: a trailing axis of size 1; the buffer is the
    same. *)
Definition add_channel_axis (images : list float_image)
    : list (@ndarray (exact_device ds)) :=
  (λ f, @NDArray (exact_device ds) ((float_shape f).1, (float_shape f).2, 1)
          (float_pixels f)) <$> images.

(** Lines 119-130, for the train or for the test images. *)
Definition prepare_images (n : nat) (images : list raw_image)
    : list (@ndarray (exact_device ds)) :=
  add_channel_axis (normalize (reduce_size n images)).

End Prepare.
End Dataset.

(** ** The figure of sample images (lines 246-263)

    Of a Matplotlib [Axes] the script sets the label of the y axis, the
    visibility of the y axis, and the image shown; the colour map and the
    layout calls do not interact with them and are left out. *)

Section Plot.
Context `{QDevice}.

(** [images[k, :, :, c]]: a view of channel [c] of image [k]. *)
Record view : Type := View {
  view_base : ndarray;
  view_channel : nat;
}.

Definition channel_view (images : batch) (k c : nat) : result view :=
  match images !! k with
  | None => Raise (IndexError k 0 (length images))
  | Some a =>
      if decide ((shape a).2 ≤ c) then Raise (IndexError c 3 (shape a).2)
      else Ok (View a c)
  end.

Record axes : Type := Axes {
  ylabel : string;
  yaxis_visible : bool;
  image_shown : option view;
}.

Definition figure : Type := list (list axes).

(** [plt.subplots(nrows, ncols)]: a grid of empty axes. *)
Definition subplots (nrows ncols : nat) : figure :=
  replicate nrows (replicate ncols (Axes "" true None)).

(** [axes[r, k]] *)
Definition get_axes (fig : figure) (r k : nat) : result axes :=
  match fig !! r with
  | None => Raise (IndexError r 0 (length fig))
  | Some row =>
      match row !! k with
      | None => Raise (IndexError k 1 (length row))
      | Some ax => Ok ax
      end
  end.

(** A method call on [axes[r, k]] that updates it. *)
Definition with_axes (r k : nat) (f : axes → axes) (fig : figure) : result figure :=
  _ ← get_axes fig r k;
  Ok (alter (alter f k) r fig).

Definition set_ylabel (s : string) (ax : axes) : axes :=
  Axes s (yaxis_visible ax) (image_shown ax).

Definition set_yaxis_visible (b : bool) (ax : axes) : axes :=
  Axes (ylabel ax) b (image_shown ax).

Definition imshow (v : view) (ax : axes) : axes :=
  Axes (ylabel ax) (yaxis_visible ax) (Some v).

Definition n_samples : nat := 4.
Definition n_channels : nat := 4.

(** [for x in xs: body(x)], the figure being what the body updates *)
Fixpoint for_fig (xs : list nat) (body : nat → figure → result figure) (fig : figure)
    : result figure :=
  match xs with
  | [] => Ok fig
  | x :: xs' => fig' ← body x fig; for_fig xs' body fig'
  end.

(** The body of [for c in range(n_channels)] (lines 256-260). *)
Definition plot_channel (q_train_images : batch) (k c : nat) (fig : figure)
    : result figure :=
  fig ← with_axes (c + 1) 0 (set_ylabel ("Output [ch. " +:+ pretty c +:+ "]")) fig;
  fig ← (if decide (k ≠ 0) then with_axes c k (set_yaxis_visible false) fig else Ok fig);
  _ ← get_axes fig (c + 1) k;
  v ← channel_view q_train_images k c;
  with_axes (c + 1) k (imshow v) fig.

(** The body of [for k in range(n_samples)] (lines 249-260). *)
Definition plot_sample (train_images q_train_images : batch) (k : nat) (fig : figure)
    : result figure :=
  fig ← with_axes 0 0 (set_ylabel "Input") fig;
  fig ← (if decide (k ≠ 0) then with_axes 0 k (set_yaxis_visible false) fig else Ok fig);
  _ ← get_axes fig 0 k;
  v ← channel_view train_images k 0;
  fig ← with_axes 0 k (imshow v) fig;
  for_fig (range 0 n_channels 1) (plot_channel q_train_images k) fig.

Definition plot_samples (train_images q_train_images : batch) : result figure :=
  for_fig (range 0 n_samples 1) (plot_sample train_images q_train_images)
    (subplots (1 + n_channels) n_samples).

End Plot.

(** ** More sample inputs *)

Module MoreSamples.
Import Exact Samples Dataset.

(** A raw 28x28 image, all white. *)
Definition white_raw : raw_image := RawImage (28, 28) (replicate 784 Byte.xff).

(** A 14x14x4 tensor of zeros. *)
Definition blank_tensor : @ndarray sample_device := np_zeros (14, 14, 4).

End MoreSamples.

(** * Properties *)

Section Generic.
Context `{QDevice}.

Lemma result_bind_Ok {A B} (f : A → result B) (a : A) : (Ok a ≫= f) = f a.
Proof. reflexivity. Qed.

(** ** Ranges *)

Lemma range_lookup start stop step n x :
  range start stop step !! n = Some x →
  x = start + step * n ∧ n < length (range start stop step).
Proof.
  intros Hn. split.
  - unfold range in Hn. rewrite list_lookup_fmap in Hn.
    destruct (seq _ _ !! n) as [i|] eqn:Hi; simplify_eq/=.
    apply lookup_seq in Hi as [-> _]. done.
  - by eapply lookup_lt_Some.
Qed.

Lemma range_lookup_lt start stop step n :
  n < length (range start stop step) →
  range start stop step !! n = Some (start + step * n).
Proof.
  intros Hn. unfold range in *. rewrite length_fmap, length_seq in Hn.
  rewrite list_lookup_fmap, lookup_seq_lt by done. done.
Qed.

(** ** Loops *)

Lemma for_invariant {A} (I : nat → state → Prop) (xs : list A) body σ :
  I 0 σ →
  (∀ n x σ1, xs !! n = Some x → I n σ1 →
     ∃ σ2, body x σ1 = (Ok tt, σ2) ∧ I (S n) σ2) →
  ∃ σ', for_ xs body σ = (Ok tt, σ') ∧ I (length xs) σ'.
Proof.
  revert I σ. induction xs as [|x xs IH]; intros I σ H0 Hstep.
  - exists σ. done.
  - destruct (Hstep 0 x σ eq_refl H0) as (σ1 & Hb & H1).
    destruct (IH (λ n, I (S n)) σ1 H1) as (σ' & Hf & Hl).
    { intros n y σ2 Hy. apply (Hstep (S n)). done. }
    exists σ'. split; [|done].
    simpl. unfold mbind, M_bind. rewrite Hb. done.
Qed.

Lemma for_raises {A} (I : nat → state → Prop) (E : exn → Prop)
    (xs : list A) body σ n x :
  I 0 σ →
  xs !! n = Some x →
  (∀ m y σ1, m < n → xs !! m = Some y → I m σ1 →
     ∃ σ2, body y σ1 = (Ok tt, σ2) ∧ I (S m) σ2) →
  (∀ σ1, I n σ1 → ∃ e σ2, body x σ1 = (Raise e, σ2) ∧ E e) →
  ∃ e σ', for_ xs body σ = (Raise e, σ') ∧ E e.
Proof.
  revert I σ n. induction xs as [|y xs IH]; intros I σ n H0 Hx Hstep Hfail; [done|].
  destruct n as [|n]; simplify_eq/=.
  - destruct (Hfail σ H0) as (e & σ1 & He & HE). exists e, σ1. split; [|done].
    unfold mbind, M_bind. by rewrite He.
  - destruct (Hstep 0 y σ ltac:(lia) eq_refl H0) as (σ1 & Hb & H1).
    destruct (IH (λ k, I (S k)) σ1 n H1 Hx) as (e & σ2 & He & HE).
    { intros m z σ2 Hm Hz. apply (Hstep (S m)); [lia|done]. }
    { done. }
    exists e, σ2. split; [|done]. unfold mbind, M_bind. by rewrite Hb.
Qed.

(** ** Arrays *)

Lemma offset_ok h w c i j k :
  i < h → j < w → k < c → offset (h, w, c) i j k = Ok ((i * w + j) * c + k).
Proof. intros. unfold offset. repeat case_decide; (lia || done). Qed.

Lemma offset_lt h w c i j k :
  i < h → j < w → k < c → (i * w + j) * c + k < h * w * c.
Proof.
  intros Hi Hj Hk.
  assert (i * w + j + 1 ≤ h * w) as Hrow.
  { pose proof (Nat.mul_le_mono_r (i + 1) h w ltac:(lia)). lia. }
  pose proof (Nat.mul_le_mono_r _ _ c Hrow). lia.
Qed.

Lemma offset_raises s i j k e :
  offset s i j k = Raise e → ∃ x ax n, e = IndexError x ax n.
Proof.
  destruct s as [[h w] c]. unfold offset.
  repeat case_decide; intros; simplify_eq; eauto.
Qed.

Lemma nd_get_ok a h w c i j k :
  wf_ndarray a → shape a = (h, w, c) → i < h → j < w → k < c →
  ∃ v, nd_get a i j k = Ok v.
Proof.
  intros Hwf Hs Hi Hj Hk. unfold nd_get. rewrite Hs, offset_ok by done.
  unfold wf_ndarray in Hwf. rewrite Hs in Hwf. simpl in Hwf.
  destruct (lookup_lt_is_Some_2 (data a) ((i * w + j) * c + k)) as [v Hv].
  { rewrite Hwf. by apply offset_lt. }
  exists v. simpl. unfold list_getitem. by rewrite Hv.
Qed.

Lemma nd_get_raises a h w c i j k :
  shape a = (h, w, c) → h ≤ i ∨ w ≤ j ∨ c ≤ k →
  ∃ x ax n, nd_get a i j k = Raise (IndexError x ax n).
Proof.
  intros Hs Hout. unfold nd_get. rewrite Hs. unfold offset.
  repeat case_decide; simpl; eauto. exfalso. lia.
Qed.

Lemma np_zeros_wf s : wf_ndarray (np_zeros s).
Proof. unfold wf_ndarray, np_zeros. simpl. by rewrite length_replicate. Qed.

(** Writing one cell of a 14x14x4 array: that cell holds the value written
    and every other cell keeps its own. *)
Lemma nd_set_14 o r s c v :
  shape o = (14, 14, 4) → wf_ndarray o → r < 14 → s < 14 → c < 4 →
  ∃ o', nd_set o r s c v = Ok o' ∧ shape o' = (14, 14, 4) ∧ wf_ndarray o' ∧
    nd_get o' r s c = Ok v ∧
    ∀ r' s' c', r' < 14 → s' < 14 → c' < 4 → (r', s', c') ≠ (r, s, c) →
      nd_get o' r' s' c' = nd_get o r' s' c'.
Proof.
  intros Hs Hwf Hr Hs' Hc. unfold nd_set. rewrite Hs, offset_ok by done. simpl.
  eexists. split; [done|]. unfold wf_ndarray in *. rewrite Hs in Hwf. simpl in *.
  split; [done|]. split; [by rewrite length_insert|]. split.
  - unfold nd_get. cbn [shape data]. rewrite offset_ok by done. simpl.
    unfold list_getitem. rewrite list_lookup_insert_eq by lia. done.
  - intros r' s1 c' Hr' Hs1 Hc' Hne. unfold nd_get. cbn [shape data].
    rewrite Hs, !offset_ok by done. simpl. unfold list_getitem.
    rewrite list_lookup_insert_ne; [done|].
    intros Heq. apply Hne. f_equal; [f_equal|]; lia.
Qed.

(** ** Monadic reads and writes *)

Lemma getitem_eq l a i j k σ :
  heap σ !! l = Some a →
  getitem l i j k σ = lift (nd_get a i j k) σ.
Proof.
  intros Hl. unfold getitem, mbind, M_bind, deref. by rewrite Hl.
Qed.

Lemma bind_getitem {B} l a i j k v (f : scalar → M B) σ :
  heap σ !! l = Some a → nd_get a i j k = Ok v →
  (getitem l i j k ≫= f) σ = f v σ.
Proof.
  intros Hl Hv. unfold mbind at 1, M_bind at 1.
  rewrite (getitem_eq l a) by done. by rewrite Hv.
Qed.

Lemma bind_getitem_raises {B} l a i j k e (f : scalar → M B) σ :
  heap σ !! l = Some a → nd_get a i j k = Raise e →
  (getitem l i j k ≫= f) σ = (Raise e, σ).
Proof.
  intros Hl Hv. unfold mbind at 1, M_bind at 1.
  rewrite (getitem_eq l a) by done. by rewrite Hv.
Qed.

Lemma bind_circuit {B} phi q (f : list scalar → M B) σ :
  circuit_fn (rand_params σ) phi = Ok q →
  (circuit phi ≫= f) σ = f q σ.
Proof.
  intros Hq. unfold mbind at 1, M_bind at 1, circuit. by rewrite Hq.
Qed.

Lemma set_heap_twice l o o' σ :
  set_heap <[l := o']> (set_heap <[l := o]> σ) = set_heap <[l := o']> σ.
Proof. unfold set_heap. simpl. by rewrite insert_insert_eq. Qed.

Lemma filled_weaken σ a l (P Q : nat → nat → nat → Prop) σ' :
  (∀ r s c, r < 14 → s < 14 → c < 4 → Q r s c → P r s c) →
  filled σ a l P σ' → filled σ a l Q σ'.
Proof.
  intros HQP (o & -> & Hs & Hwf & Hcells). exists o. repeat split; try done.
  intros r s c ? ? ? HQ. apply Hcells; auto.
Qed.

Lemma filled_lookup_image σ a l P σ' img :
  filled σ a l P σ' → l ≠ img → heap σ' !! img = heap σ !! img.
Proof.
  intros (o & -> & _) Hne. simpl. by rewrite lookup_insert_ne.
Qed.

Lemma filled_params σ a l P σ' :
  filled σ a l P σ' → rand_params σ' = rand_params σ.
Proof. by intros (o & -> & _). Qed.

Lemma setitem_filled σ a l P σ' r s c v :
  filled σ a l P σ' → r < 14 → s < 14 → c < 4 →
  cell_value (rand_params σ) a r s c = Ok v →
  ∃ σ'', setitem l r s c v σ' = (Ok tt, σ'') ∧
    filled σ a l (λ r' s' c', P r' s' c' ∨ (r' = r ∧ s' = s ∧ c' = c)) σ''.
Proof.
  intros (o & -> & Hs & Hwf & Hcells) Hr Hs' Hc Hv.
  destruct (nd_set_14 o r s c v) as (o' & Hset & Hs2 & Hwf2 & Hsame & Hother);
    try done.
  exists (set_heap <[l := o']> σ). split.
  - unfold setitem, mbind, M_bind, deref. simpl. rewrite lookup_insert_eq.
    unfold lift. rewrite Hset. unfold store. by rewrite set_heap_twice.
  - exists o'. repeat split; try done.
    intros r' s1 c' Hr' Hs1 Hc' HP.
    destruct (decide ((r', s1, c') = (r, s, c))) as [Heq|Hne].
    + simplify_eq. by rewrite Hsame.
    + rewrite Hother by done. apply Hcells; try done.
      destruct HP as [HP|(-> & -> & ->)]; done.
Qed.

(** ** One patch *)

Lemma quanv_unfold image :
  quanv image =
    (out ← zeros (14, 14, 4);
     for_ (range 0 28 2) (λ j, for_ (range 0 28 2) (quanv_patch image out j));;
     mret out).
Proof. reflexivity. Qed.

Lemma patch_ok a h w c j k :
  wf_ndarray a → shape a = (h, w, c) → j + 1 < h → k + 1 < w → 1 ≤ c →
  ∃ p0 p1 p2 p3,
    nd_get a j k 0 = Ok p0 ∧ nd_get a j (k + 1) 0 = Ok p1 ∧
    nd_get a (j + 1) k 0 = Ok p2 ∧ nd_get a (j + 1) (k + 1) 0 = Ok p3 ∧
    patch a j k = Ok [p0; p1; p2; p3].
Proof.
  intros Hwf Hs Hj Hk Hc.
  destruct (nd_get_ok a h w c j k 0) as [p0 H0]; [done|done|lia..|].
  destruct (nd_get_ok a h w c j (k + 1) 0) as [p1 H1]; [done|done|lia..|].
  destruct (nd_get_ok a h w c (j + 1) k 0) as [p2 H2]; [done|done|lia..|].
  destruct (nd_get_ok a h w c (j + 1) (k + 1) 0) as [p3 H3]; [done|done|lia..|].
  exists p0, p1, p2, p3. unfold patch. rewrite H0, H1, H2, H3. done.
Qed.

Lemma covers_28_shape a :
  covers_28 a → ∃ h w c, shape a = (h, w, c) ∧ 28 ≤ h ∧ 28 ≤ w ∧ 1 ≤ c.
Proof.
  unfold covers_28. destruct (shape a) as [[h w] c]. intros. by exists h, w, c.
Qed.

(** On four inputs the circuit returns four outputs. *)
Lemma circuit_fn_four params p0 p1 p2 p3 :
  ∃ e0 e1 e2 e3, circuit_fn params [p0; p1; p2; p3] = Ok [e0; e1; e2; e3].
Proof. do 4 eexists. reflexivity. Qed.

Lemma cell_value_ok params a r s c :
  wf_ndarray a → covers_28 a → r < 14 → s < 14 → c < 4 →
  ∃ v, cell_value params a r s c = Ok v.
Proof.
  intros Hwf Hcov Hr Hs Hc.
  destruct (covers_28_shape a Hcov) as (h & w & ch & Hsh & Hh & Hw & Hch).
  destruct (patch_ok a h w ch (2 * r) (2 * s))
    as (p0 & p1 & p2 & p3 & _ & _ & _ & _ & Hp); [done|done|lia..|].
  destruct (circuit_fn_four params p0 p1 p2 p3) as (e0 & e1 & e2 & e3 & He).
  unfold cell_value. rewrite Hp, result_bind_Ok, He, result_bind_Ok.
  destruct c as [|[|[|[|?]]]]; [eauto..|lia].
Qed.

Lemma quanv_patch_filled σ a h w ch img l n m σ1 :
  heap σ !! img = Some a → l ≠ img → wf_ndarray a →
  shape a = (h, w, ch) → 2 * n + 1 < h → 2 * m + 1 < w → 1 ≤ ch →
  n < 14 → m < 14 →
  filled σ a l (written n m 0) σ1 →
  ∃ σ2, quanv_patch img l (0 + 2 * n) (0 + 2 * m) σ1 = (Ok tt, σ2) ∧
    filled σ a l (written n (S m) 0) σ2.
Proof.
  intros Himg Hne Hwf Hsh Hh Hw Hch Hn Hm Hfill.
  assert (heap σ1 !! img = Some a) as Himg1.
  { erewrite filled_lookup_image; done. }
  destruct (patch_ok a h w ch (2 * n) (2 * m))
    as (p0 & p1 & p2 & p3 & H0 & H1 & H2 & H3 & Hp); [done|done|lia..|].
  destruct (circuit_fn_four (rand_params σ) p0 p1 p2 p3) as (e0 & e1 & e2 & e3 & He).
  replace (0 + 2 * n) with (2 * n) by lia. replace (0 + 2 * m) with (2 * m) by lia.
  unfold quanv_patch.
  rewrite (bind_getitem img a _ _ _ p0) by done.
  rewrite (bind_getitem img a _ _ _ p1) by done.
  rewrite (bind_getitem img a _ _ _ p2) by done.
  rewrite (bind_getitem img a _ _ _ p3) by done.
  rewrite (bind_circuit _ [e0; e1; e2; e3])
    by (by rewrite (filled_params _ _ _ _ _ Hfill)).
  replace (2 * n / 2) with n by (rewrite Nat.mul_comm, Nat.div_mul; lia).
  replace (2 * m / 2) with m by (rewrite Nat.mul_comm, Nat.div_mul; lia).
  destruct (for_invariant (λ t, filled σ a l (written n m t)) (range 0 4 1)
    (λ c, (lift (list_getitem [e0; e1; e2; e3] c)) ≫= (λ v, setitem l n m c v)) σ1)
    as (σ2 & Hrun & Hfin); [done| |].
  - intros t c σ3 Hc Hf3. apply range_lookup in Hc as [-> Ht].
    change (length (range 0 4 1)) with 4 in Ht.
    assert (∃ v, list_getitem [e0; e1; e2; e3] (0 + 1 * t) = Ok v ∧
                 cell_value (rand_params σ) a n m (0 + 1 * t) = Ok v) as (v & Hv & Hcell).
    { unfold cell_value. rewrite Hp, result_bind_Ok, He, result_bind_Ok.
      destruct t as [|[|[|[|?]]]]; [eauto..|lia]. }
    destruct (setitem_filled σ a l _ σ3 n m (0 + 1 * t) v Hf3) as (σ4 & Hset & Hf4);
      [done|done|lia|done|].
    exists σ4. split.
    + unfold mbind, M_bind. rewrite Hv. cbn [lift]. done.
    + eapply filled_weaken; [|done]. unfold written. intros r s c. simpl. lia.
  - rewrite Hrun. eexists. split; [done|].
    eapply filled_weaken; [|done]. unfold written.
    change (length (range 0 4 1)) with 4. intros r s c. lia.
Qed.

(** ** The whole transform *)

Lemma fresh_ne (σ : state) img a :
  heap σ !! img = Some a → fresh (dom (heap σ)) ≠ img.
Proof.
  intros Himg Heq. apply (is_fresh (dom (heap σ))). rewrite Heq.
  apply elem_of_dom. eauto.
Qed.

(** A row of patches that lies inside the image. *)
Lemma quanv_row_filled σ a h w ch img l n σ1 :
  heap σ !! img = Some a → l ≠ img → wf_ndarray a →
  shape a = (h, w, ch) → 2 * n + 1 < h → 28 ≤ w → 1 ≤ ch → n < 14 →
  filled σ a l (written n 0 0) σ1 →
  ∃ σ2, for_ (range 0 28 2) (quanv_patch img l (0 + 2 * n)) σ1 = (Ok tt, σ2) ∧
    filled σ a l (written (S n) 0 0) σ2.
Proof.
  intros Himg Hne Hwf Hsh Hh Hw Hch Hn Hf1.
  destruct (for_invariant (λ m, filled σ a l (written n m 0)) (range 0 28 2)
    (quanv_patch img l (0 + 2 * n)) σ1) as (σ2 & Hrun & Hfin); [done| |].
  - intros m k σ2 Hk Hf2. apply range_lookup in Hk as [-> Hm].
    change (length (range 0 28 2)) with 14 in Hm.
    eapply quanv_patch_filled; (done || lia).
  - exists σ2. split; [done|]. eapply filled_weaken; [|done].
    change (length (range 0 28 2)) with 14. unfold written. intros. lia.
Qed.

Lemma filled_zeros σ a :
  filled σ a (fresh (dom (heap σ))) (written 0 0 0)
    (set_heap <[fresh (dom (heap σ)) := np_zeros (14, 14, 4)]> σ).
Proof.
  exists (np_zeros (14, 14, 4)). repeat split; auto using np_zeros_wf.
  unfold written. intros. lia.
Qed.

(** On an image that covers rows and columns 0..27, [quanv] returns a new
    14x14x4 array, changes nothing else, and cell [(r, s, c)] holds channel
    [c] of the circuit's output on the patch at [(2r, 2s)]. *)
Lemma quanv_run img a σ :
  heap σ !! img = Some a → wf_ndarray a → covers_28 a →
  ∃ o, quanv img σ =
         (Ok (fresh (dom (heap σ))), set_heap <[fresh (dom (heap σ)) := o]> σ) ∧
    shape o = (14, 14, 4) ∧ wf_ndarray o ∧
    ∀ r s c, r < 14 → s < 14 → c < 4 →
      nd_get o r s c = cell_value (rand_params σ) a r s c.
Proof.
  intros Himg Hwf Hcov. pose proof (fresh_ne σ img a Himg) as Hne.
  destruct (covers_28_shape a Hcov) as (h & w & ch & Hsh & Hh & Hw & Hch).
  pose proof (filled_zeros σ a) as Hzero.
  set (l := fresh (dom (heap σ))) in *.
  destruct (for_invariant (λ n, filled σ a l (written n 0 0)) (range 0 28 2)
    (λ j, for_ (range 0 28 2) (quanv_patch img l j))
    (set_heap <[l := np_zeros (14, 14, 4)]> σ)) as (σ' & Hrun & Hfin); [done| |].
  - intros n j σ1 Hj Hf1. apply range_lookup in Hj as [-> Hn].
    change (length (range 0 28 2)) with 14 in Hn.
    eapply quanv_row_filled; (done || lia).
  - destruct Hfin as (o & -> & Hs & Hwfo & Hcells).
    exists o. split; [|repeat split; try done].
    + rewrite quanv_unfold. unfold mbind at 1, M_bind at 1, zeros. fold l.
      unfold mbind at 1, M_bind at 1. rewrite Hrun. done.
    + intros r s c Hr Hs' Hc. apply Hcells; try done.
      change (length (range 0 28 2)) with 14. unfold written. lia.
Qed.

(** ** Images that are too small *)

Lemma nd_get_Ok_inv a h w c i j k v :
  shape a = (h, w, c) → nd_get a i j k = Ok v → i < h ∧ j < w ∧ k < c.
Proof.
  intros Hs. unfold nd_get. rewrite Hs. unfold offset.
  repeat case_decide; try done. lia.
Qed.

Lemma nd_get_raises_index a i j k e :
  wf_ndarray a → nd_get a i j k = Raise e → is_index_error e.
Proof.
  intros Hwf Hget. destruct (shape a) as [[h w] c] eqn:Hs.
  destruct (decide (i < h ∧ j < w ∧ k < c)) as [(Hi & Hj & Hk)|Hout].
  - destruct (nd_get_ok a h w c i j k) as [v Hv]; try done. congruence.
  - destruct (nd_get_raises a h w c i j k) as (x & ax & n & Hr); [done|lia|].
    rewrite Hr in Hget. by simplify_eq.
Qed.

Lemma quanv_patch_raises a h w c img l j k σ1 :
  heap σ1 !! img = Some a → wf_ndarray a → shape a = (h, w, c) →
  h ≤ j + 1 ∨ w ≤ k + 1 ∨ c = 0 →
  ∃ e σ2, quanv_patch img l j k σ1 = (Raise e, σ2) ∧ is_index_error e.
Proof.
  intros Himg Hwf Hs Hout. unfold quanv_patch.
  destruct (nd_get a j k 0) as [p0|e] eqn:H0.
  2:{ exists e, σ1.
      split; [by eapply bind_getitem_raises|by eapply nd_get_raises_index]. }
  rewrite (bind_getitem img a _ _ _ p0) by done.
  destruct (nd_get a j (k + 1) 0) as [p1|e] eqn:H1.
  2:{ exists e, σ1.
      split; [by eapply bind_getitem_raises|by eapply nd_get_raises_index]. }
  rewrite (bind_getitem img a _ _ _ p1) by done.
  destruct (nd_get a (j + 1) k 0) as [p2|e] eqn:H2.
  2:{ exists e, σ1.
      split; [by eapply bind_getitem_raises|by eapply nd_get_raises_index]. }
  rewrite (bind_getitem img a _ _ _ p2) by done.
  destruct (nd_get a (j + 1) (k + 1) 0) as [p3|e] eqn:H3.
  2:{ exists e, σ1.
      split; [by eapply bind_getitem_raises|by eapply nd_get_raises_index]. }
  apply (nd_get_Ok_inv a h w c) in H3; [lia|done].
Qed.

(** A row of patches that leaves the image. *)
Lemma quanv_row_raises σ a h w ch img l n σ1 :
  heap σ !! img = Some a → l ≠ img → wf_ndarray a →
  shape a = (h, w, ch) → n < 14 → h ≤ 2 * n + 1 ∨ w < 28 ∨ ch = 0 →
  filled σ a l (written n 0 0) σ1 →
  ∃ e σ2, for_ (range 0 28 2) (quanv_patch img l (0 + 2 * n)) σ1 = (Raise e, σ2) ∧
    is_index_error e.
Proof.
  intros Himg Hne Hwf Hsh Hn Hout Hf1.
  set (m0 := if decide (h ≤ 2 * n + 1 ∨ ch = 0) then 0 else w / 2).
  assert (m0 < 14 ∧ (h ≤ 2 * n + 1 ∨ w ≤ 2 * m0 + 1 ∨ ch = 0) ∧
          ∀ m, m < m0 → 2 * n + 1 < h ∧ 2 * m + 1 < w ∧ 1 ≤ ch) as (Hm0 & Hbad & Hgood).
  { unfold m0. pose proof (Nat.div_mod_eq w 2).
    pose proof (Nat.mod_upper_bound w 2 ltac:(lia)).
    case_decide; (split; [lia|split; [lia|intros m Hm; lia]]). }
  apply (for_raises (λ m, filled σ a l (written n m 0)) is_index_error _ _ _
    m0 (0 + 2 * m0)); [done| | |].
  - apply range_lookup_lt. by change (length (range 0 28 2)) with 14.
  - intros m k σ2 Hm Hk Hf2. apply range_lookup in Hk as [-> Hm'].
    destruct (Hgood m Hm) as (? & ? & ?).
    eapply quanv_patch_filled; (done || lia).
  - intros σ2 Hf2. eapply quanv_patch_raises; [|done|done|lia].
    erewrite filled_lookup_image; done.
Qed.

(** [quanv] raises [IndexError] on an image with fewer than 28 rows, fewer
    than 28 columns, or no channel. *)
Lemma quanv_index_error img a h w ch σ :
  heap σ !! img = Some a → wf_ndarray a → shape a = (h, w, ch) →
  h < 28 ∨ w < 28 ∨ ch = 0 →
  ∃ e σ', quanv img σ = (Raise e, σ') ∧ is_index_error e.
Proof.
  intros Himg Hwf Hsh Hout. pose proof (fresh_ne σ img a Himg) as Hne.
  pose proof (filled_zeros σ a) as Hzero.
  set (l := fresh (dom (heap σ))) in *.
  set (n0 := if decide (w < 28 ∨ ch = 0) then 0 else h / 2).
  assert (n0 < 14 ∧ (h ≤ 2 * n0 + 1 ∨ w < 28 ∨ ch = 0) ∧
          ∀ n, n < n0 → 2 * n + 1 < h ∧ 28 ≤ w ∧ 1 ≤ ch) as (Hn0 & Hbad & Hgood).
  { unfold n0. pose proof (Nat.div_mod_eq h 2).
    pose proof (Nat.mod_upper_bound h 2 ltac:(lia)).
    case_decide; (split; [lia|split; [lia|intros n Hn; lia]]). }
  destruct (for_raises (λ n, filled σ a l (written n 0 0)) is_index_error
    (range 0 28 2) (λ j, for_ (range 0 28 2) (quanv_patch img l j))
    (set_heap <[l := np_zeros (14, 14, 4)]> σ) n0 (0 + 2 * n0))
    as (e & σ' & He & Hidx); [done| | | |].
  - apply range_lookup_lt. by change (length (range 0 28 2)) with 14.
  - intros n j σ1 Hn Hj Hf1. apply range_lookup in Hj as [-> Hn'].
    destruct (Hgood n Hn) as (? & ? & ?).
    eapply quanv_row_filled; (done || lia).
  - intros σ1 Hf1. eapply quanv_row_raises; (done || lia).
  - exists e, σ'. split; [|done].
    rewrite quanv_unfold. unfold mbind at 1, M_bind at 1, zeros. fold l.
    unfold mbind at 1, M_bind at 1. by rewrite He.
Qed.

(** Every cell of the buffer of a 14x14x4 array is [o[r, s, c]] for some
    indices in range. *)
Lemma data_lookup_14 o i v :
  shape o = (14, 14, 4) → wf_ndarray o → data o !! i = Some v →
  ∃ r s c, r < 14 ∧ s < 14 ∧ c < 4 ∧ nd_get o r s c = Ok v.
Proof.
  intros Hs Hwf Hv. apply lookup_lt_Some in Hv as Hi.
  unfold wf_ndarray in Hwf. rewrite Hs in Hwf. simpl in Hwf.
  assert (i / 56 < 14) as Hr by (apply Nat.Div0.div_lt_upper_bound; lia).
  assert ((i / 4) `mod` 14 < 14) as Hs' by (apply Nat.mod_upper_bound; lia).
  assert (i `mod` 4 < 4) as Hc by (apply Nat.mod_upper_bound; lia).
  exists (i / 56), ((i / 4) `mod` 14), (i `mod` 4). repeat (split; [done|]).
  unfold nd_get. rewrite Hs, offset_ok, result_bind_Ok by done.
  assert ((i / 56 * 14 + (i / 4) `mod` 14) * 4 + i `mod` 4 = i) as ->.
  { pose proof (Nat.div_mod_eq i 4). pose proof (Nat.div_mod_eq (i / 4) 14).
    assert (i / 56 = i / 4 / 14) as -> by (by rewrite Nat.Div0.div_div).
    lia. }
  unfold list_getitem. by rewrite Hv.
Qed.

(** Two 14x14x4 arrays with the same cells are the same array. *)
Lemma ndarray_ext_14 o1 o2 :
  shape o1 = (14, 14, 4) → wf_ndarray o1 →
  shape o2 = (14, 14, 4) → wf_ndarray o2 →
  (∀ r s c, r < 14 → s < 14 → c < 4 → nd_get o1 r s c = nd_get o2 r s c) →
  o1 = o2.
Proof.
  intros Hs1 Hw1 Hs2 Hw2 Hcells. destruct o1 as [s1 d1], o2 as [s2 d2].
  unfold wf_ndarray in *. simpl in *. subst. f_equal.
  apply list_eq. intros i. destruct (decide (i < 784)) as [Hi|Hi].
  - assert (i / 56 < 14) as Hr by (apply Nat.Div0.div_lt_upper_bound; lia).
    assert ((i / 4) `mod` 14 < 14) as Hs by (apply Nat.mod_upper_bound; lia).
    assert (i `mod` 4 < 4) as Hc by (apply Nat.mod_upper_bound; lia).
    specialize (Hcells _ _ _ Hr Hs Hc).
    unfold nd_get in Hcells. cbn [shape data] in Hcells.
    rewrite !offset_ok, !result_bind_Ok in Hcells by done.
    assert ((i / 56 * 14 + (i / 4) `mod` 14) * 4 + i `mod` 4 = i) as Hoff.
    { pose proof (Nat.div_mod_eq i 4). pose proof (Nat.div_mod_eq (i / 4) 14).
      assert (i / 56 = i / 4 / 14) as -> by (by rewrite Nat.Div0.div_div).
      lia. }
    rewrite Hoff in Hcells. unfold list_getitem in Hcells.
    destruct (lookup_lt_is_Some_2 d1 i) as [v1 Hv1]; [simpl in *; lia|].
    destruct (lookup_lt_is_Some_2 d2 i) as [v2 Hv2]; [simpl in *; lia|].
    rewrite Hv1, Hv2 in *. congruence.
  - rewrite !lookup_ge_None_2; [done|simpl in *; lia..].
Qed.

(** ** Frame: what a call can change, whether it returns or raises *)

Lemma only_changes_refl l σ : only_changes l σ σ.
Proof. by repeat split. Qed.

Lemma only_changes_trans l σ1 σ2 σ3 :
  only_changes l σ1 σ2 → only_changes l σ2 σ3 → only_changes l σ1 σ3.
Proof.
  intros (Hp1 & Hf1 & Hh1) (Hp2 & Hf2 & Hh2). repeat split; try congruence.
  intros l' Hl'. rewrite Hh2, Hh1; done.
Qed.

Lemma bind_frame {A B} l (m : M A) (f : A → M B) σ :
  only_changes l σ (m σ).2 →
  (∀ a σ1, only_changes l σ1 (f a σ1).2) →
  only_changes l σ ((m ≫= f) σ).2.
Proof.
  intros Hm Hf. unfold mbind, M_bind. destruct (m σ) as [[a|e] σ1]; simpl in *.
  - eapply only_changes_trans; [done|apply Hf].
  - done.
Qed.

Lemma for_frame {A} l (xs : list A) body σ :
  (∀ x σ1, only_changes l σ1 (body x σ1).2) →
  only_changes l σ (for_ xs body σ).2.
Proof.
  intros Hbody. revert σ. induction xs as [|x xs IH]; intros σ; simpl.
  - apply only_changes_refl.
  - apply bind_frame; [apply Hbody|]. intros _ σ1. apply IH.
Qed.

Lemma getitem_frame l img i j k σ : only_changes l σ (getitem img i j k σ).2.
Proof.
  unfold getitem. apply bind_frame.
  - unfold deref. destruct (heap σ !! img); apply only_changes_refl.
  - intros a σ1. apply only_changes_refl.
Qed.

Lemma setitem_frame l i j k v σ : only_changes l σ (setitem l i j k v σ).2.
Proof.
  unfold setitem. apply bind_frame.
  - unfold deref. destruct (heap σ !! l); apply only_changes_refl.
  - intros a σ1. apply bind_frame; [apply only_changes_refl|].
    intros a' σ2. repeat split. intros l' Hl'. simpl. by rewrite lookup_insert_ne.
Qed.

Lemma quanv_patch_frame img l j k σ : only_changes l σ (quanv_patch img l j k σ).2.
Proof.
  unfold quanv_patch.
  do 4 (apply bind_frame; [apply getitem_frame|intros ? ?]).
  apply bind_frame; [apply only_changes_refl|]. intros q ?.
  apply for_frame. intros c ?.
  apply bind_frame; [apply only_changes_refl|]. intros v ?. apply setitem_frame.
Qed.

(** Whatever the outcome, a call of [quanv] leaves [rand_params], the files
    and every object that existed before the call as they were. *)
Lemma quanv_frame img σ :
  rand_params (quanv img σ).2 = rand_params σ ∧
  files (quanv img σ).2 = files σ ∧
  ∀ l, is_Some (heap σ !! l) → heap (quanv img σ).2 !! l = heap σ !! l.
Proof.
  set (out := fresh (dom (heap σ))).
  assert (only_changes out (set_heap <[out := np_zeros (14, 14, 4)]> σ) (quanv img σ).2)
    as (Hp & Hf & Hh).
  { rewrite quanv_unfold. unfold mbind at 1, M_bind at 1, zeros. fold out.
    apply bind_frame; [|intros; apply only_changes_refl].
    apply for_frame. intros j σ1. apply for_frame. intros k σ2.
    apply quanv_patch_frame. }
  repeat split; try done. intros l Hl.
  assert (l ≠ out) as Hne.
  { intros ->. apply (is_fresh (dom (heap σ))). by apply elem_of_dom. }
  rewrite Hh by done. simpl. by rewrite lookup_insert_ne.
Qed.

(** ** Uniform images *)

Lemma uniform_image_wf h w c v : wf_ndarray (uniform_image h w c v).
Proof. unfold wf_ndarray, uniform_image. simpl. by rewrite length_replicate. Qed.

Lemma nd_get_uniform h w c v i j k :
  i < h → j < w → k < c → nd_get (uniform_image h w c v) i j k = Ok v.
Proof.
  intros Hi Hj Hk. unfold nd_get, uniform_image. cbn [shape data].
  rewrite offset_ok, result_bind_Ok by done. unfold list_getitem.
  rewrite lookup_replicate_2; [done|]. by apply offset_lt.
Qed.

(** ** The output is a function of the image and the parameters *)

Lemma covers_28_intro a h w c :
  shape a = (h, w, c) → 28 ≤ h → 28 ≤ w → 1 ≤ c → covers_28 a.
Proof. intros Hs ? ? ?. unfold covers_28. by rewrite Hs. Qed.

Lemma quanv_run_lookup img a σ :
  heap σ !! img = Some a → wf_ndarray a → covers_28 a →
  ∃ out σ' o, quanv img σ = (Ok out, σ') ∧ heap σ' !! out = Some o ∧
    shape o = (14, 14, 4) ∧ wf_ndarray o ∧
    ∀ r s c, r < 14 → s < 14 → c < 4 →
      nd_get o r s c = cell_value (rand_params σ) a r s c.
Proof.
  intros Himg Hwf Hcov.
  destruct (quanv_run img a σ) as (o & Hrun & Hs & Hwfo & Hcells); try done.
  eexists _, _, o. split; [done|]. simpl. by rewrite lookup_insert_eq.
Qed.

Lemma even_half j : j `mod` 2 = 0 → 2 * (j / 2) = j.
Proof. intros Hj. pose proof (Nat.div_mod_eq j 2). lia. Qed.

Lemma cell_value_agree params a1 a2 r s c :
  (∀ dj dk, dj < 2 → dk < 2 →
     nd_get a1 (2 * r + dj) (2 * s + dk) 0 = nd_get a2 (2 * r + dj) (2 * s + dk) 0) →
  cell_value params a1 r s c = cell_value params a2 r s c.
Proof.
  intros Hpix. unfold cell_value, patch.
  pose proof (Hpix 0 0 ltac:(lia) ltac:(lia)) as H00.
  pose proof (Hpix 0 1 ltac:(lia) ltac:(lia)) as H01.
  pose proof (Hpix 1 0 ltac:(lia) ltac:(lia)) as H10.
  pose proof (Hpix 1 1 ltac:(lia) ltac:(lia)) as H11.
  rewrite !Nat.add_0_r in *. by rewrite H00, H01, H10, H11.
Qed.

(** C1: for every 28x28x1 image and every even patch corner [(j, k)],
    [quanv] passes the circuit the pixels at offsets (0,0), (0,1), (1,0),
    (1,1) from [(j, k)], in that order, and output cell [(j/2, k/2, c)] holds
    element [c] of what the circuit returns, for [c = 0..3]. *)
Theorem quanv_patch_order_and_cell σ img a j k :
  heap σ !! img = Some a → wf_ndarray a → shape a = (28, 28, 1) →
  j < 28 → k < 28 → j `mod` 2 = 0 → k `mod` 2 = 0 →
  ∃ out σ' o p00 p01 p10 p11 q,
    quanv img σ = (Ok out, σ') ∧ heap σ' !! out = Some o ∧
    nd_get a j k 0 = Ok p00 ∧ nd_get a j (k + 1) 0 = Ok p01 ∧
    nd_get a (j + 1) k 0 = Ok p10 ∧ nd_get a (j + 1) (k + 1) 0 = Ok p11 ∧
    circuit_fn (rand_params σ) [p00; p01; p10; p11] = Ok q ∧
    length q = 4 ∧
    ∀ c, c < 4 → nd_get o (j / 2) (k / 2) c = list_getitem q c.
Proof.
  intros Himg Hwf Hsh Hj Hk Hje Hke.
  destruct (quanv_run_lookup img a σ) as (out & σ' & o & Hrun & Hout & _ & _ & Hcells);
    [done|done|by eapply covers_28_intro|].
  destruct (patch_ok a 28 28 1 j k) as (p0 & p1 & p2 & p3 & H0 & H1 & H2 & H3 & Hp);
    [done|done| | |lia|].
  { pose proof (even_half j Hje). lia. }
  { pose proof (even_half k Hke). lia. }
  destruct (circuit_fn_four (rand_params σ) p0 p1 p2 p3) as (e0 & e1 & e2 & e3 & He).
  exists out, σ', o, p0, p1, p2, p3, [e0; e1; e2; e3].
  repeat (split; [done|]). intros c Hc.
  rewrite Hcells; [|apply Nat.Div0.div_lt_upper_bound; lia..|done].
  unfold cell_value. rewrite !even_half by done.
  by rewrite Hp, result_bind_Ok, He, result_bind_Ok.
Qed.

(** C2, amended: for an image of shape (H, W, 1) with H and W even and at
    least 2, [quanv] returns a tensor of shape (14, 14, 4) when H and W are
    at least 28, which is (H/2, W/2, 4) exactly when H = W = 28, and raises
    [IndexError] when H or W is below 28. *)
Theorem quanv_output_shape σ img a h w :
  heap σ !! img = Some a → wf_ndarray a → shape a = (h, w, 1) →
  h `mod` 2 = 0 → w `mod` 2 = 0 → 2 ≤ h → 2 ≤ w →
  (28 ≤ h → 28 ≤ w →
     ∃ out σ' o, quanv img σ = (Ok out, σ') ∧ heap σ' !! out = Some o ∧
       wf_ndarray o ∧ shape o = (14, 14, 4) ∧
       (shape o = (h / 2, w / 2, 4) ↔ h = 28 ∧ w = 28)) ∧
  (h < 28 ∨ w < 28 → ∃ e σ', quanv img σ = (Raise e, σ') ∧ is_index_error e).
Proof.
  intros Himg Hwf Hsh Hhe Hwe Hh Hw. split.
  - intros Hh28 Hw28.
    destruct (quanv_run_lookup img a σ) as (out & σ' & o & Hrun & Hout & Hso & Hwfo & _);
      [done|done|by eapply covers_28_intro|].
    exists out, σ', o. repeat (split; [done|]). rewrite Hso.
    pose proof (even_half h Hhe). pose proof (even_half w Hwe).
    split; [|intros [-> ->]; done].
    intros Heq. assert (14 = h / 2) by congruence. assert (14 = w / 2) by congruence.
    split; lia.
  - intros Hsmall. eapply quanv_index_error; [done..|lia].
Qed.

(** C4: for fixed [rand_params] and a fixed image, two calls of [quanv] give
    the same tensor; the first call changes neither [rand_params] nor the
    image, and any call in any state that holds the same image and the same
    [rand_params] gives that tensor too. *)
Theorem quanv_deterministic σ img a :
  heap σ !! img = Some a → wf_ndarray a → covers_28 a →
  ∃ out1 σ1 o,
    quanv img σ = (Ok out1, σ1) ∧ heap σ1 !! out1 = Some o ∧
    rand_params σ1 = rand_params σ ∧ heap σ1 !! img = Some a ∧
    (∃ out2 σ2, quanv img σ1 = (Ok out2, σ2) ∧
       heap σ2 !! out2 = Some o ∧ heap σ2 !! out1 = Some o) ∧
    (∀ τ img', heap τ !! img' = Some a → rand_params τ = rand_params σ →
       ∃ out' τ', quanv img' τ = (Ok out', τ') ∧ heap τ' !! out' = Some o).
Proof.
  intros Himg Hwf Hcov.
  destruct (quanv_run_lookup img a σ) as (out1 & σ1 & o & Hrun & Hout & Hso & Hwfo & Hcells);
    try done.
  pose proof (quanv_frame img σ) as (Hp & _ & Hh). rewrite Hrun in Hp, Hh. simpl in *.
  assert (∀ τ img', heap τ !! img' = Some a → rand_params τ = rand_params σ →
    ∃ out' τ', quanv img' τ = (Ok out', τ') ∧ heap τ' !! out' = Some o) as Hany.
  { intros τ img' Himg' Hparams.
    destruct (quanv_run_lookup img' a τ)
      as (out' & τ' & o' & Hrun' & Hout' & Hso' & Hwfo' & Hcells'); try done.
    exists out', τ'. split; [done|]. rewrite Hout'. f_equal.
    apply ndarray_ext_14; try done. intros r s c Hr Hs Hc.
    rewrite Hcells', Hcells, Hparams; done. }
  assert (heap σ1 !! img = Some a) as Himg1 by (rewrite Hh; eauto).
  exists out1, σ1, o. repeat (split; [done|]). split; [|done].
  destruct (Hany σ1 img Himg1 Hp) as (out2 & σ2 & Hrun2 & Hout2).
  exists out2, σ2. repeat (split; [done|]).
  pose proof (quanv_frame img σ1) as (_ & _ & Hh2). rewrite Hrun2 in Hh2. simpl in *.
  rewrite Hh2; eauto.
Qed.

(** C5: changing pixels outside a 2x2 patch does not change the output cell
    of that patch: two images that agree on the four pixels of the patch at
    [(j, k)] give the same values in cell [(j/2, k/2, c)], for every [c]. *)
Theorem quanv_patch_independence σ1 σ2 img1 img2 a1 a2 j k :
  heap σ1 !! img1 = Some a1 → heap σ2 !! img2 = Some a2 →
  rand_params σ1 = rand_params σ2 →
  wf_ndarray a1 → wf_ndarray a2 → covers_28 a1 → covers_28 a2 →
  j < 28 → k < 28 → j `mod` 2 = 0 → k `mod` 2 = 0 →
  (∀ dj dk, dj < 2 → dk < 2 →
     nd_get a1 (j + dj) (k + dk) 0 = nd_get a2 (j + dj) (k + dk) 0) →
  ∃ out1 σ1' o1 out2 σ2' o2,
    quanv img1 σ1 = (Ok out1, σ1') ∧ heap σ1' !! out1 = Some o1 ∧
    quanv img2 σ2 = (Ok out2, σ2') ∧ heap σ2' !! out2 = Some o2 ∧
    ∀ c, c < 4 →
      ∃ v, nd_get o1 (j / 2) (k / 2) c = Ok v ∧ nd_get o2 (j / 2) (k / 2) c = Ok v.
Proof.
  intros Himg1 Himg2 Hparams Hwf1 Hwf2 Hcov1 Hcov2 Hj Hk Hje Hke Hpix.
  destruct (quanv_run_lookup img1 a1 σ1) as (out1 & σ1' & o1 & Hrun1 & Hout1 & _ & _ & Hc1);
    try done.
  destruct (quanv_run_lookup img2 a2 σ2) as (out2 & σ2' & o2 & Hrun2 & Hout2 & _ & _ & Hc2);
    try done.
  exists out1, σ1', o1, out2, σ2', o2. repeat (split; [done|]). intros c Hc.
  assert (j / 2 < 14) by (apply Nat.Div0.div_lt_upper_bound; lia).
  assert (k / 2 < 14) by (apply Nat.Div0.div_lt_upper_bound; lia).
  destruct (cell_value_ok (rand_params σ1) a1 (j / 2) (k / 2) c) as [v Hv]; try done.
  exists v. rewrite Hc1, Hc2 by done. split; [done|].
  rewrite <- Hparams, <- Hv. symmetry. apply cell_value_agree.
  rewrite !even_half by done. done.
Qed.

(** C7: [quanv] has no side effect beyond the tensor it returns: whether the
    call returns or raises, the input image, every other object that existed
    before the call, [rand_params] and the files are as they were. *)
Theorem quanv_no_side_effects σ img a :
  heap σ !! img = Some a →
  ∃ r σ', quanv img σ = (r, σ') ∧
    heap σ' !! img = Some a ∧
    (∀ l, is_Some (heap σ !! l) → heap σ' !! l = heap σ !! l) ∧
    rand_params σ' = rand_params σ ∧ files σ' = files σ.
Proof.
  intros Himg. pose proof (quanv_frame img σ) as (Hp & Hf & Hh).
  destruct (quanv img σ) as [r σ'] eqn:Hrun. simpl in *.
  exists r, σ'. split; [done|]. split; [rewrite Hh; eauto|]. done.
Qed.

(** C8, amended: [quanv] does not check the image's dimensions.  It raises
    NumPy's [IndexError] exactly when the image has fewer than 28 rows, fewer
    than 28 columns or no channel; every other image, of odd dimensions or of
    several channels too, is processed without error. *)
Theorem quanv_index_error_iff σ img a h w c :
  heap σ !! img = Some a → wf_ndarray a → shape a = (h, w, c) →
  (h < 28 ∨ w < 28 ∨ c = 0 →
     ∃ e σ', quanv img σ = (Raise e, σ') ∧ is_index_error e) ∧
  (28 ≤ h → 28 ≤ w → 1 ≤ c →
     ∃ out σ' o, quanv img σ = (Ok out, σ') ∧ heap σ' !! out = Some o ∧
       shape o = (14, 14, 4)).
Proof.
  intros Himg Hwf Hsh. split.
  - intros Hsmall. by eapply quanv_index_error.
  - intros Hh Hw Hc.
    destruct (quanv_run_lookup img a σ) as (out & σ' & o & Hrun & Hout & Hso & _);
      [done|done|by eapply covers_28_intro|].
    by exists out, σ', o.
Qed.

(** C10: on any image with at least 28 rows and 28 columns [quanv] returns
    without error a 14x14x4 tensor that depends on rows and columns 0..27
    only: two such images that agree there give the same tensor, whatever
    their sizes and their other pixels. *)
Theorem quanv_top_left_region σ1 σ2 img1 img2 a1 a2 :
  heap σ1 !! img1 = Some a1 → heap σ2 !! img2 = Some a2 →
  rand_params σ1 = rand_params σ2 →
  wf_ndarray a1 → wf_ndarray a2 → covers_28 a1 → covers_28 a2 →
  (∀ i j, i < 28 → j < 28 → nd_get a1 i j 0 = nd_get a2 i j 0) →
  ∃ out1 σ1' out2 σ2' o,
    quanv img1 σ1 = (Ok out1, σ1') ∧ heap σ1' !! out1 = Some o ∧
    quanv img2 σ2 = (Ok out2, σ2') ∧ heap σ2' !! out2 = Some o ∧
    shape o = (14, 14, 4) ∧ wf_ndarray o.
Proof.
  intros Himg1 Himg2 Hparams Hwf1 Hwf2 Hcov1 Hcov2 Hpix.
  destruct (quanv_run_lookup img1 a1 σ1)
    as (out1 & σ1' & o1 & Hrun1 & Hout1 & Hs1 & Hwfo1 & Hc1); try done.
  destruct (quanv_run_lookup img2 a2 σ2)
    as (out2 & σ2' & o2 & Hrun2 & Hout2 & Hs2 & Hwfo2 & Hc2); try done.
  exists out1, σ1', out2, σ2', o1. repeat (split; [done|]).
  split; [|done]. rewrite Hout2. f_equal.
  apply ndarray_ext_14; try done. intros r s c Hr Hs Hc.
  rewrite Hc1, Hc2, Hparams by done. symmetry. apply cell_value_agree.
  intros dj dk Hdj Hdk. apply Hpix; lia.
Qed.

(** ** The pre-processing driver *)

Lemma preprocess_driver_skip train test σ :
  preprocess_driver false train test σ =
    (q_train_images ← np_load train_file;
     q_test_images ← np_load test_file;
     mret (q_train_images, q_test_images)) σ.
Proof. reflexivity. Qed.

Lemma preprocess_driver_no_train train test σ :
  files σ !! train_file = None →
  preprocess_driver false train test σ = (Raise (FileNotFoundError train_file), σ).
Proof.
  intros Hmiss. rewrite preprocess_driver_skip.
  unfold mbind at 1, M_bind at 1, np_load at 1. by rewrite Hmiss.
Qed.

Lemma preprocess_driver_no_test train test σ b :
  files σ !! train_file = Some b → files σ !! test_file = None →
  preprocess_driver false train test σ = (Raise (FileNotFoundError test_file), σ).
Proof.
  intros Htrain Hmiss. rewrite preprocess_driver_skip.
  unfold mbind at 1, M_bind at 1, np_load at 1. rewrite Htrain.
  unfold mbind at 1, M_bind at 1, np_load at 1. by rewrite Hmiss.
Qed.

(** C9, amended: when [PREPROCESS] is [False] and a cached feature file is
    missing, the program stops at [np.load] with NumPy's
    [FileNotFoundError] that names the missing file; it produces no tensor,
    writes nothing, and its message gives no hint about pre-processing. *)
Theorem preprocess_driver_cache_miss train test σ :
  files σ !! train_file = None ∨
    (is_Some (files σ !! train_file) ∧ files σ !! test_file = None) →
  ∃ path, preprocess_driver false train test σ = (Raise (FileNotFoundError path), σ) ∧
    files σ !! path = None ∧ (path = train_file ∨ path = test_file) ∧
    exn_message (FileNotFoundError path) =
      "[Errno 2] No such file or directory: '" +:+ path +:+ "'" ∧
    cache_hint (FileNotFoundError path) = false.
Proof.
  intros [Hmiss|[[b Hb] Hmiss]].
  - exists train_file. rewrite preprocess_driver_no_train by done.
    repeat split; auto.
  - exists test_file. rewrite (preprocess_driver_no_test _ _ _ b) by done.
    repeat split; auto.
Qed.

End Generic.

(** ** The exact device *)

Section ExactDevice.
Import Exact.
Local Open Scope R_scope.

(** *** Sums over the 16 basis states *)

Lemma sum16_ext (f g : nat → R) :
  (∀ i, (i < 16)%nat → f i = g i) → sum16 f = sum16 g.
Proof.
  intros Hfg. unfold sum16. f_equal. apply list_fmap_ext.
  intros i x Hx. apply lookup_seq in Hx as [-> ?]. apply Hfg. lia.
Qed.

(** *** The circuit on four inputs *)

Lemma nth_wires p : (p < 4)%nat → nth p (range 0 4 1) O = p.
Proof. intros Hp. destruct p as [|[|[|[|?]]]]; (done || lia). Qed.

(** The state after the four encoding rotations. *)
Lemma circuit_fn_exact ds params p0 p1 p2 p3 :
  circuit_fn (H := exact_device ds) params [p0; p1; p2; p3] =
    Ok ((λ j, expZ j (random_layers (range 0 4 1) params ds
           (rot RotY (PI * p3) 3 (rot RotY (PI * p2) 2
             (rot RotY (PI * p1) 1 (rot RotY (PI * p0) 0 ket0))))))
        <$> range 0 4 1).
Proof. reflexivity. Qed.

(** *** All parameters and all inputs zero *)

Lemma rot_zero g w ψ i : rot g 0 w ψ i = ψ i.
Proof.
  unfold rot, apply_1q, rot_matrix.
  replace (0 / 2) with 0 by lra. rewrite cos_0, sin_0.
  destruct (ψ i) as [x1 x2], (ψ (flip w i)) as [y1 y2].
  destruct g, (bit w i); unfold Cadd, Cmul; simpl; f_equal; ring.
Qed.

Lemma rot_zero_ket0 g w ψ : is_ket0 ψ → is_ket0 (rot g 0 w ψ).
Proof.
  intros [H0 Hz]. split; [by rewrite rot_zero|].
  intros i Hi. rewrite rot_zero. by apply Hz.
Qed.

Lemma cnot_ket0 c t ψ :
  (c < 4)%nat → (t < 4)%nat → c ≠ t → is_ket0 ψ → is_ket0 (cnot c t ψ).
Proof.
  intros Hc Ht Hne [H0 Hz]. split.
  - unfold cnot, bit. by rewrite Nat.bits_0.
  - intros i Hi. unfold cnot.
    destruct c as [|[|[|[|?]]]]; [| | | |lia];
      (destruct t as [|[|[|[|?]]]]; [| | | |lia]); try done;
      do 16 (destruct i as [|i]; [first [lia | apply Hz; vm_compute; lia]|]); lia.
Qed.

Lemma ket0_is_ket0 : is_ket0 ket0.
Proof. split; [done|]. intros [|i] Hi; [lia|done]. Qed.

Lemma expZ_ket0 w ψ : is_ket0 ψ → expZ w ψ = 1.
Proof.
  intros [H0 Hz]. unfold expZ.
  rewrite (sum16_ext _ (λ i, match i with O => 1 | S _ => 0 end)).
  - unfold sum16. simpl. lra.
  - intros [|i] Hi.
    + unfold bit. rewrite Nat.bits_0, H0. unfold Cnorm2. simpl. lra.
    + rewrite Hz by lia. unfold Cnorm2. simpl. destruct (bit w (S i)); lra.
Qed.

Lemma random_layer_zero ds row ψ :
  Forall (valid_decision 4) ds → Forall (λ x, x = 0) row → is_ket0 ψ →
  Forall (valid_decision 4) (random_layer (range 0 4 1) row ds ψ).1 ∧
  is_ket0 (random_layer (range 0 4 1) row ds ψ).2.
Proof.
  intros Hds. remember (range 0 4 1) as wires eqn:Hw.
  revert row ψ. induction Hds as [|d ds Hd Hds IH]; intros row ψ Hrow Hψ.
  - done.
  - destruct row as [|θ row]; [by split; [constructor|]|].
    apply Forall_cons in Hrow as Hrow'. destruct Hrow' as [-> Hrow'].
    destruct d as [g p|pc pt]; cbn [random_layer]; simpl in Hd.
    + apply IH; [done|]. by apply rot_zero_ket0.
    + destruct Hd as (Hpc & Hpt & Hne).
      case_decide as Hlen; [|by apply IH].
      apply IH; [done|]. rewrite Hw, !nth_wires by done. by apply cnot_ket0.
Qed.

Lemma random_layers_zero ds weights ψ :
  Forall (valid_decision 4) ds → Forall (Forall (λ x, x = 0)) weights →
  is_ket0 ψ → is_ket0 (random_layers (range 0 4 1) weights ds ψ).
Proof.
  revert ds ψ. induction weights as [|row weights IH]; intros ds ψ Hds Hzero Hψ;
    [done|].
  apply Forall_cons in Hzero as [Hrow Hzero]. simpl.
  destruct (random_layer_zero ds row ψ Hds Hrow Hψ) as [Hv Hk].
  destruct (random_layer (range 0 4 1) row ds ψ) as [ds' ψ']. simpl in *.
  by apply IH.
Qed.

Lemma circuit_fn_zero ds params :
  Forall (valid_decision 4) ds → Forall (Forall (λ x, x = 0)) params →
  circuit_fn (H := exact_device ds) params [0; 0; 0; 0] = Ok [1; 1; 1; 1].
Proof.
  intros Hds Hzero. rewrite circuit_fn_exact. rewrite Rmult_0_r.
  assert (∀ j ψ, is_ket0 ψ → expZ j ψ = 1) as Hone by apply expZ_ket0.
  cbn [range]. simpl. f_equal.
  rewrite !Hone; [done|apply random_layers_zero; try done;
    repeat apply rot_zero_ket0; apply ket0_is_ket0..].
Qed.

(** C3, amended: for the all-zero 28x28x1 image and [rand_params] all zero,
    [quanv] returns a 14x14x4 tensor whose every entry is +1. *)
Theorem quanv_zero_image_all_ones ds (σ : @state (exact_device ds)) img :
  Forall (valid_decision 4) ds →
  Forall (Forall (λ x, x = 0)) (rand_params σ) →
  heap σ !! img = Some (uniform_image (H := exact_device ds) 28 28 1 0) →
  ∃ out σ' o, quanv img σ = (Ok out, σ') ∧ heap σ' !! out = Some o ∧
    shape o = (14, 14, 4)%nat ∧ data o = replicate 784 1.
Proof.
  intros Hds Hzero Himg.
  destruct (quanv_run_lookup img _ σ Himg)
    as (out & σ' & o & Hrun & Hout & Hso & Hwfo & Hcells).
  { apply uniform_image_wf. }
  { unfold covers_28. simpl. lia. }
  exists out, σ', o. repeat (split; [done|]).
  symmetry. apply replicate_as_Forall. split.
  { unfold wf_ndarray in Hwfo. by rewrite Hso in Hwfo. }
  apply Forall_lookup. intros i v Hv.
  destruct (data_lookup_14 o i v) as (r & s & c & Hr & Hs & Hc & Hget); try done.
  rewrite Hcells in Hget by done. unfold cell_value, patch in Hget.
  rewrite !nd_get_uniform, !result_bind_Ok in Hget by lia.
  rewrite (circuit_fn_zero ds) in Hget by done. rewrite result_bind_Ok in Hget.
  unfold list_getitem in Hget.
  destruct c as [|[|[|[|?]]]]; simpl in Hget; by simplify_eq.
Qed.

End ExactDevice.

(** ** Sample runs *)

Section SampleRuns.
Import Exact Samples.
Local Open Scope R_scope.

Lemma sample_draws_valid : Forall (valid_decision 4) sample_draws.
Proof. repeat constructor; lia. Qed.

Lemma run_state_image params a : heap (run_state params a) !! 1%positive = Some a.
Proof. apply lookup_singleton_eq. Qed.

Lemma black_covers_28 h w c :
  (28 ≤ h)%nat → (28 ≤ w)%nat → (1 ≤ c)%nat → covers_28 (black h w c).
Proof. intros. unfold covers_28. simpl. lia. Qed.

Lemma black_but_last_wf : wf_ndarray black_but_last.
Proof. reflexivity. Qed.

Example range_rows : range 0 28 2 = [0; 2; 4; 6; 8; 10; 12; 14; 16; 18; 20; 22; 24; 26]%nat.
Proof. reflexivity. Qed.

Example range_channels : range 0 4 1 = [0; 1; 2; 3]%nat.
Proof. reflexivity. Qed.

Example black_4x4_read : nd_get (black 4 4 1) 0 4 0 = Raise (IndexError 4 1 4).
Proof. reflexivity. Qed.

Example index_error_text :
  exn_message (IndexError 4 1 4) = "index 4 is out of bounds for axis 1 with size 4".
Proof. reflexivity. Qed.

Example missing_file_text :
  exn_message (FileNotFoundError train_file) =
    "[Errno 2] No such file or directory: 'my_path/q_train_images.npy'".
Proof. reflexivity. Qed.

Example hint_is_recognised :
  mentions "preprocess" "cache not found, set PREPROCESS=True" = true.
Proof. reflexivity. Qed.

(** A 4x4x1 image is too small for the loops: the patches at (0, 0) and
    (0, 2) are processed, then the read [image[0, 4, 0]] raises. *)
Lemma quanv_4x4_raises (params : list (list R)) :
  ∃ σ', quanv 1%positive (run_state params (black 4 4 1)) =
          (Raise (IndexError 4 1 4), σ').
Proof.
  set (σ := run_state params (black 4 4 1)).
  pose proof (fresh_ne σ 1%positive (black 4 4 1) (run_state_image _ _)) as Hne.
  pose proof (filled_zeros σ (black 4 4 1)) as Hzero.
  set (l := fresh (dom (heap σ))) in *.
  destruct (for_raises (λ n, filled σ (black 4 4 1) l (written n 0 0))
    (eq (IndexError 4 1 4)) (range 0 28 2)
    (λ j, for_ (range 0 28 2) (quanv_patch 1%positive l j))
    (set_heap <[l := np_zeros (14, 14, 4)%nat]> σ) 0%nat 0%nat)
    as (e & σ' & He & <-); [done|reflexivity|intros; lia| |].
  - intros σ1 Hf1.
    apply (for_raises (λ m, filled σ (black 4 4 1) l (written 0 m 0))
      (eq (IndexError 4 1 4)) _ _ _ 2%nat 4%nat); [done|reflexivity| |].
    + intros m k σ2 Hm Hk Hf2. apply range_lookup in Hk as [-> _].
      apply (quanv_patch_filled σ (black 4 4 1) 4 4 1 1%positive l 0 m σ2);
        (done || lia || apply run_state_image || apply uniform_image_wf).
    + intros σ2 Hf2. exists (IndexError 4 1 4), σ2. split; [|done].
      unfold quanv_patch. apply (bind_getitem_raises _ (black 4 4 1)); [|reflexivity].
      erewrite filled_lookup_image; [apply run_state_image|done|done].
  - exists σ'. rewrite quanv_unfold. unfold mbind at 1, M_bind at 1, zeros. fold σ l.
    unfold mbind at 1, M_bind at 1. by rewrite He.
Qed.

(** Witness of C1: the patch at (4, 6) of a black 28x28x1 image. *)
Lemma quanv_patch_order_and_cell_witness :
  ∃ out σ' o p00 p01 p10 p11 q,
    quanv 1%positive (run_state sample_params (black 28 28 1)) = (Ok out, σ') ∧
    heap σ' !! out = Some o ∧
    nd_get (black 28 28 1) 4 6 0 = Ok p00 ∧ nd_get (black 28 28 1) 4 (6 + 1) 0 = Ok p01 ∧
    nd_get (black 28 28 1) (4 + 1) 6 0 = Ok p10 ∧
    nd_get (black 28 28 1) (4 + 1) (6 + 1) 0 = Ok p11 ∧
    circuit_fn (H := sample_device) sample_params [p00; p01; p10; p11] = Ok q ∧
    length q = 4%nat ∧
    ∀ c, (c < 4)%nat → nd_get o (4 / 2) (6 / 2) c = list_getitem q c.
Proof.
  apply (quanv_patch_order_and_cell (run_state sample_params (black 28 28 1))
           1%positive (black 28 28 1) 4 6);
    [reflexivity|reflexivity|reflexivity|lia|lia
    |reflexivity|reflexivity].
Defined.

(** Counterexample to C2 as stated: on a 4x4x1 image [quanv] raises
    [IndexError] and returns no tensor of shape (2, 2, 4). *)
Lemma quanv_shape_law_fails_4x4 :
  (∃ σ', quanv 1%positive (run_state sample_params (black 4 4 1)) =
           (Raise (IndexError 4 1 4), σ')) ∧
  ¬ ∃ out σ' o,
      quanv 1%positive (run_state sample_params (black 4 4 1)) = (Ok out, σ') ∧
      heap σ' !! out = Some o ∧ shape o = (4 / 2, 4 / 2, 4)%nat.
Proof.
  destruct (quanv_4x4_raises sample_params) as (σ'' & Hraise).
  split; [by exists σ''|]. intros (out & σ' & o & Hrun & _). congruence.
Qed.

(** Witness of C2, amended: a 28x28x1 image. *)
Lemma quanv_output_shape_witness :
  ((28 ≤ 28)%nat → (28 ≤ 28)%nat →
     ∃ out σ' o,
       quanv 1%positive (run_state sample_params (black 28 28 1)) = (Ok out, σ') ∧
       heap σ' !! out = Some o ∧ wf_ndarray o ∧ shape o = (14, 14, 4)%nat ∧
       (shape o = (28 / 2, 28 / 2, 4)%nat ↔ 28%nat = 28%nat ∧ 28%nat = 28%nat)) ∧
  ((28 < 28)%nat ∨ (28 < 28)%nat →
     ∃ e σ',
       quanv 1%positive (run_state sample_params (black 28 28 1)) = (Raise e, σ') ∧
       is_index_error e).
Proof.
  apply (quanv_output_shape (run_state sample_params (black 28 28 1))
           1%positive (black 28 28 1) 28 28);
    [reflexivity|reflexivity|reflexivity|reflexivity
    |reflexivity|lia|lia].
Defined.

(** Counterexample to C3 as stated: on the all-zero 4x4x1 image with all
    parameters zero [quanv] raises [IndexError] and returns no 2x2x4 tensor
    of ones. *)
Lemma quanv_zero_4x4_raises :
  (∃ σ', quanv 1%positive (run_state zero_params (black 4 4 1)) =
           (Raise (IndexError 4 1 4), σ')) ∧
  ¬ ∃ out σ' o,
      quanv 1%positive (run_state zero_params (black 4 4 1)) = (Ok out, σ') ∧
      heap σ' !! out = Some o ∧ shape o = (2, 2, 4)%nat ∧
      Forall (λ v, v = 1) (data o).
Proof.
  destruct (quanv_4x4_raises zero_params) as (σ'' & Hraise).
  split; [by exists σ''|]. intros (out & σ' & o & Hrun & _). congruence.
Qed.

(** Witness of C3, amended. *)
Lemma quanv_zero_image_all_ones_witness :
  ∃ out σ' o,
    quanv 1%positive (run_state zero_params (black 28 28 1)) = (Ok out, σ') ∧
    heap σ' !! out = Some o ∧ shape o = (14, 14, 4)%nat ∧ data o = replicate 784 1.
Proof.
  apply (quanv_zero_image_all_ones sample_draws
           (run_state zero_params (black 28 28 1)) 1%positive);
    [(repeat constructor; lia)|repeat constructor|reflexivity].
Defined.

(** Witness of C4. *)
Lemma quanv_deterministic_witness :
  ∃ out1 σ1 o,
    quanv 1%positive (run_state sample_params (black 28 28 1)) = (Ok out1, σ1) ∧
    heap σ1 !! out1 = Some o ∧
    rand_params σ1 = sample_params ∧ heap σ1 !! 1%positive = Some (black 28 28 1) ∧
    (∃ out2 σ2, quanv 1%positive σ1 = (Ok out2, σ2) ∧
       heap σ2 !! out2 = Some o ∧ heap σ2 !! out1 = Some o) ∧
    (∀ τ img', heap τ !! img' = Some (black 28 28 1) → rand_params τ = sample_params →
       ∃ out' τ', quanv img' τ = (Ok out', τ') ∧ heap τ' !! out' = Some o).
Proof.
  apply (quanv_deterministic (run_state sample_params (black 28 28 1))
           1%positive (black 28 28 1));
    [reflexivity|reflexivity|(unfold covers_28; simpl; lia)].
Defined.

(** Witness of C5: the patch at (0, 0), and an image whose last pixel
    differs. *)
Lemma quanv_patch_independence_witness :
  ∃ out1 σ1' o1 out2 σ2' o2,
    quanv 1%positive (run_state sample_params (black 28 28 1)) = (Ok out1, σ1') ∧
    heap σ1' !! out1 = Some o1 ∧
    quanv 1%positive (run_state sample_params black_but_last) = (Ok out2, σ2') ∧
    heap σ2' !! out2 = Some o2 ∧
    ∀ c, (c < 4)%nat →
      ∃ v, nd_get o1 (0 / 2) (0 / 2) c = Ok v ∧ nd_get o2 (0 / 2) (0 / 2) c = Ok v.
Proof.
  apply (quanv_patch_independence
           (run_state sample_params (black 28 28 1))
           (run_state sample_params black_but_last)
           1%positive 1%positive (black 28 28 1) black_but_last 0 0);
    [reflexivity|reflexivity|reflexivity
    |reflexivity|reflexivity
    |(unfold covers_28; simpl; lia)|unfold covers_28; simpl; lia
    |lia|lia|reflexivity|reflexivity|].
  intros dj dk Hdj Hdk.
  destruct dj as [|[|?]]; [| |lia]; (destruct dk as [|[|?]]; [| |lia]); reflexivity.
Defined.

(** Witness of C7. *)
Lemma quanv_no_side_effects_witness :
  ∃ r σ',
    quanv 1%positive (run_state sample_params (black 28 28 1)) = (r, σ') ∧
    heap σ' !! 1%positive = Some (black 28 28 1) ∧
    (∀ l, is_Some (heap (run_state sample_params (black 28 28 1)) !! l) →
       heap σ' !! l = heap (run_state sample_params (black 28 28 1)) !! l) ∧
    rand_params σ' = sample_params ∧ files σ' = ∅.
Proof.
  apply (quanv_no_side_effects (run_state sample_params (black 28 28 1))
           1%positive (black 28 28 1)).
  reflexivity.
Defined.

(** Counterexample to C8 as stated: an image of odd dimensions and an image
    of three channels are both processed without any error. *)
Lemma quanv_accepts_odd_dimensions :
  (∃ out σ', quanv 1%positive (run_state sample_params (black 29 29 1)) = (Ok out, σ')) ∧
  (∃ out σ', quanv 1%positive (run_state sample_params (black 28 28 3)) = (Ok out, σ')) ∧
  (¬ ∃ e σ', quanv 1%positive (run_state sample_params (black 29 29 1)) = (Raise e, σ')) ∧
  (¬ ∃ e σ', quanv 1%positive (run_state sample_params (black 28 28 3)) = (Raise e, σ')).
Proof.
  destruct (quanv_run_lookup 1%positive (black 29 29 1)
    (run_state sample_params (black 29 29 1))) as (out1 & σ1 & o1 & Hrun1 & _);
    [apply run_state_image|apply uniform_image_wf|apply black_covers_28; lia|].
  destruct (quanv_run_lookup 1%positive (black 28 28 3)
    (run_state sample_params (black 28 28 3))) as (out2 & σ2 & o2 & Hrun2 & _);
    [apply run_state_image|apply uniform_image_wf|apply black_covers_28; lia|].
  split; [by exists out1, σ1|]. split; [by exists out2, σ2|].
  split; intros (e & σ' & Hraise); congruence.
Qed.

(** Witness of C8, amended: a 27x28x1 image. *)
Lemma quanv_index_error_iff_witness :
  ((27 < 28)%nat ∨ (28 < 28)%nat ∨ 1%nat = 0%nat →
     ∃ e σ', quanv 1%positive (run_state sample_params (black 27 28 1)) = (Raise e, σ') ∧
       is_index_error e) ∧
  ((28 ≤ 27)%nat → (28 ≤ 28)%nat → (1 ≤ 1)%nat →
     ∃ out σ' o,
       quanv 1%positive (run_state sample_params (black 27 28 1)) = (Ok out, σ') ∧
       heap σ' !! out = Some o ∧ shape o = (14, 14, 4)%nat).
Proof.
  apply (quanv_index_error_iff (run_state sample_params (black 27 28 1))
           1%positive (black 27 28 1) 27 28 1);
    [reflexivity|reflexivity|reflexivity].
Defined.

(** Counterexample to C9 as stated: with [PREPROCESS = False] and no file on
    disk, the run does not end in a diagnostic that mentions pre-processing. *)
Lemma cache_miss_has_no_hint :
  ¬ ∃ e σ',
      preprocess_driver false [1%positive] []
        (run_state sample_params (black 28 28 1)) = (Raise e, σ') ∧
      cache_hint e = true.
Proof.
  intros (e & σ' & Hrun & Hhint).
  rewrite preprocess_driver_no_train in Hrun by reflexivity.
  injection Hrun as <- _. vm_compute in Hhint. discriminate.
Qed.

(** Witness of C9, amended. *)
Lemma preprocess_driver_cache_miss_witness :
  ∃ path,
    preprocess_driver false [1%positive] []
      (run_state sample_params (black 28 28 1)) =
      (Raise (FileNotFoundError path), run_state sample_params (black 28 28 1)) ∧
    files (run_state sample_params (black 28 28 1)) !! path = None ∧
    (path = train_file ∨ path = test_file) ∧
    exn_message (FileNotFoundError path) =
      "[Errno 2] No such file or directory: '" +:+ path +:+ "'" ∧
    cache_hint (FileNotFoundError path) = false.
Proof.
  apply (preprocess_driver_cache_miss [1%positive] []
           (run_state sample_params (black 28 28 1))).
  left. reflexivity.
Defined.

(** Witness of C10: a 28x28x1 image and a 30x32x2 image. *)
Lemma quanv_top_left_region_witness :
  ∃ out1 σ1' out2 σ2' o,
    quanv 1%positive (run_state sample_params (black 28 28 1)) = (Ok out1, σ1') ∧
    heap σ1' !! out1 = Some o ∧
    quanv 1%positive (run_state sample_params (black 30 32 2)) = (Ok out2, σ2') ∧
    heap σ2' !! out2 = Some o ∧
    shape o = (14, 14, 4)%nat ∧ wf_ndarray o.
Proof.
  apply (quanv_top_left_region
           (run_state sample_params (black 28 28 1))
           (run_state sample_params (black 30 32 2))
           1%positive 1%positive (black 28 28 1) (black 30 32 2));
    [reflexivity|reflexivity|reflexivity
    |reflexivity|reflexivity
    |(unfold covers_28; simpl; lia)|(unfold covers_28; simpl; lia)|].
  intros i j Hi Hj. unfold black. rewrite !nd_get_uniform by lia. reflexivity.
Defined.

End SampleRuns.

(** * Further properties of the script *)

Section MoreGeneric.
Context `{QDevice}.

(** ** The circuit's arity *)

(** X1: called with fewer than four inputs, the circuit raises Python's
    "list index out of range" at the first missing [phi[j]]. *)
Theorem circuit_fn_short params phi :
  length phi < 4 → circuit_fn params phi = Raise ListIndexError.
Proof.
  intros Hlen. destruct phi as [|p0 [|p1 [|p2 [|p3 rest]]]]; simpl in Hlen;
    (reflexivity || lia).
Qed.

(** X2: the circuit reads [phi[0..3]] only: on four or more inputs it returns
    exactly four values, the same as on the first four inputs alone. *)
Theorem circuit_fn_first_four params phi :
  4 ≤ length phi →
  ∃ e0 e1 e2 e3,
    circuit_fn params phi = Ok [e0; e1; e2; e3] ∧
    circuit_fn params (take 4 phi) = Ok [e0; e1; e2; e3].
Proof.
  intros Hlen. destruct phi as [|p0 [|p1 [|p2 [|p3 rest]]]]; simpl in Hlen; try lia.
  destruct (circuit_fn_four params p0 p1 p2 p3) as (e0 & e1 & e2 & e3 & He).
  exists e0, e1, e2, e3. split; [|exact He].
  rewrite <- He. reflexivity.
Qed.

(** ** The same circuit on every patch *)

Lemma cell_value_same_patch params a1 a2 r1 s1 r2 s2 c :
  (∀ dj dk, dj < 2 → dk < 2 →
     nd_get a1 (2 * r1 + dj) (2 * s1 + dk) 0 = nd_get a2 (2 * r2 + dj) (2 * s2 + dk) 0) →
  cell_value params a1 r1 s1 c = cell_value params a2 r2 s2 c.
Proof.
  intros Hpix. unfold cell_value, patch.
  pose proof (Hpix 0 0 ltac:(lia) ltac:(lia)) as H00.
  pose proof (Hpix 0 1 ltac:(lia) ltac:(lia)) as H01.
  pose proof (Hpix 1 0 ltac:(lia) ltac:(lia)) as H10.
  pose proof (Hpix 1 1 ltac:(lia) ltac:(lia)) as H11.
  rewrite !Nat.add_0_r in *. by rewrite H00, H01, H10, H11.
Qed.

(** X3: the kernel is shared: two patches with the same four pixels, at any
    two even positions of any two images, give the same four values in their
    output cells. *)
Theorem quanv_same_patch_same_cell σ1 σ2 img1 img2 a1 a2 j1 k1 j2 k2 :
  holds_image σ1 img1 a1 → holds_image σ2 img2 a2 →
  rand_params σ1 = rand_params σ2 →
  j1 < 28 → k1 < 28 → j2 < 28 → k2 < 28 →
  j1 `mod` 2 = 0 → k1 `mod` 2 = 0 → j2 `mod` 2 = 0 → k2 `mod` 2 = 0 →
  (∀ dj dk, dj < 2 → dk < 2 →
     nd_get a1 (j1 + dj) (k1 + dk) 0 = nd_get a2 (j2 + dj) (k2 + dk) 0) →
  ∃ out1 σ1' o1 out2 σ2' o2,
    quanv img1 σ1 = (Ok out1, σ1') ∧ heap σ1' !! out1 = Some o1 ∧
    quanv img2 σ2 = (Ok out2, σ2') ∧ heap σ2' !! out2 = Some o2 ∧
    ∀ c, c < 4 →
      ∃ v, nd_get o1 (j1 / 2) (k1 / 2) c = Ok v ∧ nd_get o2 (j2 / 2) (k2 / 2) c = Ok v.
Proof.
  intros (Himg1 & Hwf1 & Hcov1) (Himg2 & Hwf2 & Hcov2) Hparams
    Hj1 Hk1 Hj2 Hk2 Hj1e Hk1e Hj2e Hk2e Hpix.
  destruct (quanv_run_lookup img1 a1 σ1) as (out1 & σ1' & o1 & Hrun1 & Hout1 & _ & _ & Hc1);
    try done.
  destruct (quanv_run_lookup img2 a2 σ2) as (out2 & σ2' & o2 & Hrun2 & Hout2 & _ & _ & Hc2);
    try done.
  exists out1, σ1', o1, out2, σ2', o2. repeat (split; [done|]). intros c Hc.
  assert (∀ j, j < 28 → j / 2 < 14) as Hhalf.
  { intros j Hj. apply Nat.Div0.div_lt_upper_bound. lia. }
  destruct (cell_value_ok (rand_params σ1) a1 (j1 / 2) (k1 / 2) c) as [v Hv]; auto.
  exists v. rewrite Hc1, Hc2 by auto. split; [done|].
  rewrite <- Hparams, <- Hv. symmetry. apply cell_value_same_patch.
  rewrite !even_half by done. done.
Qed.

(** ** The result is a new object *)

(** X4: a call that returns creates exactly one object, the tensor, at a
    reference that named nothing before; so the result is never the input
    image, and a second call returns a different object. *)
Theorem quanv_returns_new_object σ img a :
  holds_image σ img a →
  ∃ out1 σ1 out2 σ2,
    quanv img σ = (Ok out1, σ1) ∧ heap σ !! out1 = None ∧ out1 ≠ img ∧
    dom (heap σ1) = {[out1]} ∪ dom (heap σ) ∧
    quanv img σ1 = (Ok out2, σ2) ∧ out2 ≠ out1 ∧ out2 ≠ img ∧
    dom (heap σ2) = {[out2]} ∪ dom (heap σ1).
Proof.
  intros (Himg & Hwf & Hcov).
  destruct (quanv_run img a σ) as (o1 & Hrun1 & _); try done.
  set (out1 := fresh (dom (heap σ))) in *.
  set (σ1 := set_heap <[out1 := o1]> σ) in *.
  assert (heap σ !! out1 = None) as Hnew1.
  { apply not_elem_of_dom. apply is_fresh. }
  assert (heap σ1 !! img = Some a) as Himg1.
  { simpl. rewrite lookup_insert_ne; [done|]. by eapply fresh_ne. }
  destruct (quanv_run img a σ1) as (o2 & Hrun2 & _); try done.
  set (out2 := fresh (dom (heap σ1))) in *.
  assert (heap σ1 !! out2 = None) as Hnew2.
  { apply not_elem_of_dom. apply is_fresh. }
  exists out1, σ1, out2, (set_heap <[out2 := o2]> σ1).
  split; [done|]. split; [done|]. split; [by eapply fresh_ne|].
  split; [simpl; by rewrite dom_insert_L|]. split; [done|].
  split; [|split; [by eapply fresh_ne|simpl; by rewrite dom_insert_L]].
  intros Heq. rewrite Heq in Hnew2. simpl in Hnew2.
  by rewrite lookup_insert_eq in Hnew2.
Qed.

(** ** Which [IndexError] a small image gives *)

Lemma nd_get_axis0 a h w c i j k :
  shape a = (h, w, c) → h ≤ i → nd_get a i j k = Raise (IndexError i 0 h).
Proof.
  intros Hs Hi. unfold nd_get. rewrite Hs. unfold offset.
  case_decide; [done|lia].
Qed.

Lemma nd_get_axis1 a h w c i j k :
  shape a = (h, w, c) → i < h → w ≤ j → nd_get a i j k = Raise (IndexError j 1 w).
Proof.
  intros Hs Hi Hj. unfold nd_get. rewrite Hs. unfold offset.
  repeat case_decide; (done || lia).
Qed.

Lemma nd_get_axis2 a h w c i j k :
  shape a = (h, w, c) → i < h → j < w → c ≤ k →
  nd_get a i j k = Raise (IndexError k 2 c).
Proof.
  intros Hs Hi Hj Hk. unfold nd_get. rewrite Hs. unfold offset.
  repeat case_decide; (done || lia).
Qed.

Lemma quanv_patch_raises_exact a img l j k e σ1 :
  heap σ1 !! img = Some a → patch a j k = Raise e →
  quanv_patch img l j k σ1 = (Raise e, σ1).
Proof.
  intros Himg Hpatch. unfold patch in Hpatch. unfold quanv_patch.
  destruct (nd_get a j k 0) as [p0|e0] eqn:H0;
    [|simplify_eq/=; by eapply bind_getitem_raises].
  rewrite (bind_getitem img a _ _ _ p0) by done. rewrite result_bind_Ok in Hpatch.
  destruct (nd_get a j (k + 1) 0) as [p1|e1] eqn:H1;
    [|simplify_eq/=; by eapply bind_getitem_raises].
  rewrite (bind_getitem img a _ _ _ p1) by done. rewrite result_bind_Ok in Hpatch.
  destruct (nd_get a (j + 1) k 0) as [p2|e2] eqn:H2;
    [|simplify_eq/=; by eapply bind_getitem_raises].
  rewrite (bind_getitem img a _ _ _ p2) by done. rewrite result_bind_Ok in Hpatch.
  destruct (nd_get a (j + 1) (k + 1) 0) as [p3|e3] eqn:H3;
    [|simplify_eq/=; by eapply bind_getitem_raises].
  done.
Qed.

(** The first patch that leaves the image decides the exception: the rows
    before row [n0] and the patches before column [m0] of that row are
    processed, then the patch at [(2 n0, 2 m0)] raises. *)
Lemma quanv_raises_exact img a h w ch σ n0 m0 e :
  heap σ !! img = Some a → wf_ndarray a → shape a = (h, w, ch) →
  n0 < 14 → m0 < 14 →
  (∀ n, n < n0 → 2 * n + 1 < h ∧ 28 ≤ w ∧ 1 ≤ ch) →
  (∀ m, m < m0 → 2 * n0 + 1 < h ∧ 2 * m + 1 < w ∧ 1 ≤ ch) →
  patch a (2 * n0) (2 * m0) = Raise e →
  ∃ σ', quanv img σ = (Raise e, σ').
Proof.
  intros Himg Hwf Hsh Hn0 Hm0 Hrows Hcols Hpatch.
  pose proof (fresh_ne σ img a Himg) as Hne.
  pose proof (filled_zeros σ a) as Hzero.
  set (l := fresh (dom (heap σ))) in *.
  destruct (for_raises (λ n, filled σ a l (written n 0 0)) (eq e)
    (range 0 28 2) (λ j, for_ (range 0 28 2) (quanv_patch img l j))
    (set_heap <[l := np_zeros (14, 14, 4)]> σ) n0 (0 + 2 * n0))
    as (e' & σ' & He & <-); [done| | | |].
  - apply range_lookup_lt. by change (length (range 0 28 2)) with 14.
  - intros n j σ1 Hn Hj Hf1. apply range_lookup in Hj as [-> Hn'].
    destruct (Hrows n Hn) as (? & ? & ?).
    eapply quanv_row_filled; (done || lia).
  - intros σ1 Hf1.
    apply (for_raises (λ m, filled σ a l (written n0 m 0)) (eq e) _ _ _
      m0 (0 + 2 * m0)); [done| | |].
    + apply range_lookup_lt. by change (length (range 0 28 2)) with 14.
    + intros m k σ2 Hm Hk Hf2. apply range_lookup in Hk as [-> Hm'].
      destruct (Hcols m Hm) as (? & ? & ?).
      eapply quanv_patch_filled; (done || lia).
    + intros σ2 Hf2. exists e, σ2. split; [|done].
      apply (quanv_patch_raises_exact a); [|done].
      erewrite filled_lookup_image; done.
  - exists σ'. rewrite quanv_unfold. unfold mbind at 1, M_bind at 1, zeros. fold l.
    unfold mbind at 1, M_bind at 1. by rewrite He.
Qed.

(** X5: on an image with fewer than 28 columns (and at least two rows and
    one channel) the exception is "index w is out of bounds for axis 1 with
    size w", [w] being the image's width. *)
Theorem quanv_too_narrow σ img a h w ch :
  heap σ !! img = Some a → wf_ndarray a → shape a = (h, w, ch) →
  2 ≤ h → 1 ≤ ch → w < 28 →
  ∃ σ', quanv img σ = (Raise (IndexError w 1 w), σ').
Proof.
  intros Himg Hwf Hsh Hh Hch Hw.
  pose proof (Nat.div_mod_eq w 2) as Hdiv.
  pose proof (Nat.mod_upper_bound w 2 ltac:(lia)) as Hmod.
  apply (quanv_raises_exact img a h w ch σ 0 (w / 2));
    [done|done|done|lia|lia|intros n Hn; lia|intros m Hm; lia|].
  unfold patch. replace (2 * 0) with 0 by lia.

  destruct (decide (w `mod` 2 = 0)) as [Heven|Hodd].
  - replace (2 * (w / 2)) with w by lia.
    by rewrite (nd_get_axis1 a h w ch 0 w 0) by (done || lia).
  - destruct (nd_get_ok a h w ch 0 (2 * (w / 2)) 0) as [p0 H0]; [done|done|lia..|].
    rewrite H0, result_bind_Ok.
    replace (2 * (w / 2) + 1) with w by lia.
    by rewrite (nd_get_axis1 a h w ch 0 w 0) by (done || lia).
Qed.

(** X6: on an image with fewer than 28 rows (and at least 28 columns and one
    channel) the exception is "index h is out of bounds for axis 0 with size
    h", [h] being the image's height. *)
Theorem quanv_too_short σ img a h w ch :
  heap σ !! img = Some a → wf_ndarray a → shape a = (h, w, ch) →
  h < 28 → 28 ≤ w → 1 ≤ ch →
  ∃ σ', quanv img σ = (Raise (IndexError h 0 h), σ').
Proof.
  intros Himg Hwf Hsh Hh Hw Hch.
  pose proof (Nat.div_mod_eq h 2) as Hdiv.
  pose proof (Nat.mod_upper_bound h 2 ltac:(lia)) as Hmod.
  apply (quanv_raises_exact img a h w ch σ (h / 2) 0);
    [done|done|done|lia|lia|intros n Hn; lia|intros m Hm; lia|].
  unfold patch. replace (2 * 0) with 0 by lia.

  destruct (decide (h `mod` 2 = 0)) as [Heven|Hodd].
  - replace (2 * (h / 2)) with h by lia.
    by rewrite (nd_get_axis0 a h w ch h 0 0) by (done || lia).
  - destruct (nd_get_ok a h w ch (2 * (h / 2)) 0 0) as [p0 H0]; [done|done|lia..|].
      destruct (nd_get_ok a h w ch (2 * (h / 2)) (0 + 1) 0) as [p1 H1];
        [done|done|lia..|].
    rewrite H0, result_bind_Ok, H1, result_bind_Ok.
    replace (2 * (h / 2) + 1) with h by lia.
    by rewrite (nd_get_axis0 a h w ch h 0 0) by (done || lia).
Qed.

(** X7: on an image without channels (and with at least one row and one
    column) the very first read raises "index 0 is out of bounds for axis 2
    with size 0". *)
Theorem quanv_no_channel σ img a h w :
  heap σ !! img = Some a → wf_ndarray a → shape a = (h, w, 0) →
  1 ≤ h → 1 ≤ w →
  ∃ σ', quanv img σ = (Raise (IndexError 0 2 0), σ').
Proof.
  intros Himg Hwf Hsh Hh Hw.
  apply (quanv_raises_exact img a h w 0 σ 0 0);
    [done|done|done|lia|lia|intros n Hn; lia|intros m Hm; lia|].
  unfold patch. replace (2 * 0) with 0 by lia.

    by rewrite (nd_get_axis2 a h w 0 0 0 0) by (done || lia).
Qed.

(** ** The pre-processing driver *)

Lemma bind_run {A B} (m : M A) (f : A → M B) σ a σ1 :
  m σ = (Ok a, σ1) → (m ≫= f) σ = f a σ1.
Proof. intros Hm. unfold mbind, M_bind. by rewrite Hm. Qed.

Lemma bind_raise {A B} (m : M A) (f : A → M B) σ e σ1 :
  m σ = (Raise e, σ1) → (m ≫= f) σ = (Raise e, σ1).
Proof. intros Hm. unfold mbind, M_bind. by rewrite Hm. Qed.

Lemma preprocess_driver_unfold p train test :
  preprocess_driver p train test =
    ((if p then compute_and_save train test else mret tt);; load_features).
Proof. reflexivity. Qed.

Lemma extends_refl σ : extends σ σ.
Proof. by repeat split. Qed.

Lemma extends_trans σ1 σ2 σ3 : extends σ1 σ2 → extends σ2 σ3 → extends σ1 σ3.
Proof.
  intros (Hp1 & Hf1 & Hh1) (Hp2 & Hf2 & Hh2).
  split; [congruence|]. split; [congruence|]. intros l Hl.
  rewrite Hh2, Hh1; [done|done|]. by rewrite Hh1.
Qed.

Lemma quanv_all_extends imgs σ : extends σ (quanv_all imgs σ).2.
Proof.
  revert σ. induction imgs as [|img imgs IH]; intros σ; [apply extends_refl|].
  simpl. unfold mbind at 1, M_bind at 1.
  pose proof (quanv_frame img σ) as Hq.
  destruct (quanv img σ) as [[out|e] σ1]; simpl in Hq; [|done].
  unfold mbind at 1, M_bind at 1.
  pose proof (IH σ1) as Hall.
  destruct (quanv_all imgs σ1) as [[outs|e] σ2]; simpl in Hall |- *;
    by eapply extends_trans.
Qed.

Lemma quanv_all_frame imgs σ :
  rand_params (quanv_all imgs σ).2 = rand_params σ ∧
  files (quanv_all imgs σ).2 = files σ ∧
  ∀ l, is_Some (heap σ !! l) → heap (quanv_all imgs σ).2 !! l = heap σ !! l.
Proof. apply quanv_all_extends. Qed.

Lemma holds_image_frame σ σ1 l a :
  (∀ l, is_Some (heap σ !! l) → heap σ1 !! l = heap σ !! l) →
  holds_image σ l a → holds_image σ1 l a.
Proof.
  intros Hh (Hl & Hwf & Hcov). split; [|done]. rewrite Hh; eauto.
Qed.

(** Every image of the list is processed in turn; the tensors made earlier
    are still in the store at the end. *)
Lemma quanv_all_run imgs arrays σ :
  Forall2 (holds_image σ) imgs arrays →
  ∃ outs os σ', quanv_all imgs σ = (Ok outs, σ') ∧
    Forall2 (λ out o, heap σ' !! out = Some o) outs os ∧
    Forall2 (quanv_of (rand_params σ)) arrays os.
Proof.
  intros Himgs. revert arrays σ Himgs.
  induction imgs as [|img imgs IH]; intros arrays σ Himgs.
  - apply Forall2_nil_inv_l in Himgs as ->. exists [], [], σ. by repeat split.
  - apply Forall2_cons_inv_l in Himgs as (a & arrays' & Ha & Hrest & ->).
    destruct Ha as (Himg & Hwf & Hcov).
    destruct (quanv_run_lookup img a σ)
      as (out & σ1 & o & Hrun & Hout & Hso & Hwfo & Hcells); try done.
    pose proof (quanv_frame img σ) as (Hp & _ & Hh). rewrite Hrun in Hp, Hh.
    simpl in Hp, Hh.
    destruct (IH arrays' σ1) as (outs & os & σ' & Hall & Houts & Hos).
    { eapply Forall2_impl; [exact Hrest|]. intros l a'. by apply holds_image_frame. }
    pose proof (quanv_all_frame imgs σ1) as (_ & _ & Hh'). rewrite Hall in Hh'.
    simpl in Hh'.
    exists (out :: outs), (o :: os), σ'. split; [|split].
    + simpl. rewrite (bind_run _ _ _ _ _ Hrun), (bind_run _ _ _ _ _ Hall). done.
    + constructor; [|done]. rewrite Hh'; eauto.
    + constructor; [done|]. by rewrite <- Hp.
Qed.

Lemma np_asarray_run ls os σ :
  Forall2 (λ l o, heap σ !! l = Some o) ls os → np_asarray ls σ = (Ok os, σ).
Proof.
  induction 1 as [|l o ls os Hl _ IH]; [done|].
  simpl. unfold mbind at 1, M_bind at 1, deref. rewrite Hl.
  by rewrite (bind_run _ _ _ _ _ IH).
Qed.

Lemma np_asarray_state ls σ : (np_asarray ls σ).2 = σ.
Proof.
  induction ls as [|l ls IH]; [done|].
  simpl. unfold mbind at 1, M_bind at 1, deref.
  destruct (heap σ !! l); [|done].
  unfold mbind at 1, M_bind at 1. destruct (np_asarray ls σ) as [[b|e] σ1]; by simpl in *.
Qed.

Lemma feature_files_differ : train_file ≠ test_file.
Proof. done. Qed.

Lemma load_features_run σ b1 b2 :
  files σ !! train_file = Some b1 → files σ !! test_file = Some b2 →
  load_features σ = (Ok (b1, b2), σ).
Proof.
  intros Hb1 Hb2. unfold load_features, mbind, M_bind, np_load.
  change (SAVE_PATH +:+ "q_train_images.npy") with train_file.
  change (SAVE_PATH +:+ "q_test_images.npy") with test_file.
  by rewrite Hb1, Hb2.
Qed.

Lemma preprocess_driver_ok train test train_arrays test_arrays σ :
  Forall2 (holds_image σ) train train_arrays →
  Forall2 (holds_image σ) test test_arrays →
  ∃ q_train_images q_test_images σ',
    preprocess_driver true train test σ = (Ok (q_train_images, q_test_images), σ') ∧
    Forall2 (quanv_of (rand_params σ)) train_arrays q_train_images ∧
    Forall2 (quanv_of (rand_params σ)) test_arrays q_test_images ∧
    files σ' = <[test_file := q_test_images]> (<[train_file := q_train_images]> (files σ)) ∧
    rand_params σ' = rand_params σ ∧
    ∀ l, is_Some (heap σ !! l) → heap σ' !! l = heap σ !! l.
Proof.
  intros Htrain Htest.
  destruct (quanv_all_run train train_arrays σ Htrain)
    as (outs1 & os1 & σ1 & Hall1 & Houts1 & Hos1).
  pose proof (quanv_all_frame train σ) as (Hp1 & Hf1 & Hh1).
  rewrite Hall1 in Hp1, Hf1, Hh1. simpl in Hp1, Hf1, Hh1.
  destruct (quanv_all_run test test_arrays σ1)
    as (outs2 & os2 & σ2 & Hall2 & Houts2 & Hos2).
  { eapply Forall2_impl; [exact Htest|]. intros l a. by apply holds_image_frame. }
  pose proof (quanv_all_frame test σ1) as (Hp2 & Hf2 & Hh2).
  rewrite Hall2 in Hp2, Hf2, Hh2. simpl in Hp2, Hf2, Hh2.
  set (σ3 := set_files <[test_file := os2]> (set_files <[train_file := os1]> σ2)).
  assert (compute_and_save train test σ = (Ok tt, σ3)) as Hsave.
  { unfold compute_and_save.
    rewrite (bind_run _ _ _ _ _ Hall1).
    rewrite (bind_run _ _ _ _ _ (np_asarray_run _ _ _ Houts1)).
    rewrite (bind_run _ _ _ _ _ Hall2).
    rewrite (bind_run _ _ _ _ _ (np_asarray_run _ _ _ Houts2)).
    reflexivity. }
  exists os1, os2, σ3. split.
  { rewrite preprocess_driver_unfold. rewrite (bind_run _ _ _ _ _ Hsave).
    apply load_features_run; unfold σ3; cbn [files set_files].
    - rewrite lookup_insert_ne by (symmetry; apply feature_files_differ).
      apply lookup_insert_eq.
    - apply lookup_insert_eq. }
  split; [done|]. split; [by rewrite <- Hp1|].
  split; [simpl; by rewrite Hf2, Hf1|].
  split; [simpl; congruence|].
  intros l Hl. simpl. rewrite Hh2, Hh1; [done|done|]. by rewrite Hh1.
Qed.

(** X8: with [PREPROCESS = True] and images that all cover 28x28, the driver
    returns one tensor per image, in order: the tensor of each train image
    and of each test image.  Both files are written with exactly these
    batches, replacing what they held, and nothing else changes. *)
Theorem preprocess_driver_run train test train_arrays test_arrays σ :
  Forall2 (holds_image σ) train train_arrays →
  Forall2 (holds_image σ) test test_arrays →
  ∃ q_train_images q_test_images σ',
    preprocess_driver true train test σ = (Ok (q_train_images, q_test_images), σ') ∧
    Forall2 (quanv_of (rand_params σ)) train_arrays q_train_images ∧
    Forall2 (quanv_of (rand_params σ)) test_arrays q_test_images ∧
    length q_train_images = length train ∧ length q_test_images = length test ∧
    files σ' = <[test_file := q_test_images]> (<[train_file := q_train_images]> (files σ)) ∧
    rand_params σ' = rand_params σ ∧
    ∀ l, is_Some (heap σ !! l) → heap σ' !! l = heap σ !! l.
Proof.
  intros Htrain Htest.
  destruct (preprocess_driver_ok train test train_arrays test_arrays σ Htrain Htest)
    as (b1 & b2 & σ' & Hrun & Hb1 & Hb2 & Hfiles & Hparams & Hheap).
  exists b1, b2, σ'. repeat (split; [done|]).
  apply Forall2_length in Htrain, Htest, Hb1, Hb2.
  split; [congruence|]. split; [congruence|]. done.
Qed.

Lemma load_features_state σ : (load_features σ).2 = σ.
Proof.
  unfold load_features, mbind, M_bind, np_load.
  destruct (files σ !! _); [|done]. by destruct (files σ !! _).
Qed.

Lemma compute_and_save_files train test σ :
  match compute_and_save train test σ with
  | (Ok _, σ') => is_Some (files σ' !! train_file) ∧ is_Some (files σ' !! test_file)
  | (Raise _, σ') => files σ' = files σ
  end.
Proof.
  unfold compute_and_save. unfold mbind at 1, M_bind at 1.
  pose proof (quanv_all_frame train σ) as (_ & Hf1 & _).
  destruct (quanv_all train σ) as [[outs1|e] σ1]; simpl in Hf1; [|done].
  unfold mbind at 1, M_bind at 1.
  pose proof (np_asarray_state outs1 σ1) as Hs1.
  destruct (np_asarray outs1 σ1) as [[os1|e] σ1']; simpl in Hs1; subst σ1'; [|done].
  unfold mbind at 1, M_bind at 1.
  pose proof (quanv_all_frame test σ1) as (_ & Hf2 & _).
  destruct (quanv_all test σ1) as [[outs2|e] σ2]; simpl in Hf2; [|congruence].
  unfold mbind at 1, M_bind at 1.
  pose proof (np_asarray_state outs2 σ2) as Hs2.
  destruct (np_asarray outs2 σ2) as [[os2|e] σ2']; simpl in Hs2; subst σ2'; [|congruence].
  unfold mbind, M_bind, np_save.
  change (SAVE_PATH +:+ "q_train_images.npy") with train_file.
  change (SAVE_PATH +:+ "q_test_images.npy") with test_file.
  cbn [files set_files]. split.
  - rewrite lookup_insert_ne by (symmetry; apply feature_files_differ).
    rewrite lookup_insert_eq. eauto.
  - rewrite lookup_insert_eq. eauto.
Qed.

(** X10: a run that raises an [IndexError] has written no file.  Only the
    reads of [quanv] raise it, and both [np.save] calls come after every
    image has been processed; so the files are as they were, and the tensors
    already computed are not saved. *)
Theorem preprocess_driver_index_error_keeps_files p train test σ e σ' :
  preprocess_driver p train test σ = (Raise e, σ') → is_index_error e →
  files σ' = files σ.
Proof.
  rewrite preprocess_driver_unfold. intros Hrun Hidx.
  unfold mbind at 1, M_bind at 1 in Hrun. destruct p.
  - pose proof (compute_and_save_files train test σ) as Hsave.
    destruct (compute_and_save train test σ) as [[[]|e1] σ1].
    + destruct Hsave as [[b1 Hb1] [b2 Hb2]].
      by rewrite (load_features_run σ1 b1 b2) in Hrun.
    + by simplify_eq.
  - simpl in Hrun. pose proof (load_features_state σ) as Hs.
    rewrite Hrun in Hs. simpl in Hs. by subst.
Qed.

Lemma quanv_all_raises pre bad post arrays a h w c σ :
  Forall2 (holds_image σ) pre arrays →
  heap σ !! bad = Some a → wf_ndarray a → shape a = (h, w, c) →
  h < 28 ∨ w < 28 ∨ c = 0 →
  ∃ e σ', quanv_all (pre ++ bad :: post) σ = (Raise e, σ') ∧ is_index_error e.
Proof.
  intros Hpre. revert arrays σ Hpre.
  induction pre as [|img pre IH]; intros arrays σ Hpre Hbad Hwf Hsh Hsmall.
  - destruct (quanv_index_error bad a h w c σ) as (e & σ' & Hrun & He); try done.
    exists e, σ'. split; [|done]. simpl. by rewrite (bind_raise _ _ _ _ _ Hrun).
  - apply Forall2_cons_inv_l in Hpre as (a0 & arrays' & Ha0 & Hrest & ->).
    destruct Ha0 as (Himg & Hwf0 & Hcov0).
    destruct (quanv_run_lookup img a0 σ) as (out & σ1 & o & Hrun & _); try done.
    pose proof (quanv_frame img σ) as Hext. rewrite Hrun in Hext. simpl in Hext.
    destruct (IH arrays' σ1) as (e & σ' & Hall & He); try done.
    { eapply Forall2_impl; [exact Hrest|]. intros l a'.
      apply holds_image_frame, Hext. }
    { destruct Hext as (_ & _ & Hh). rewrite Hh; eauto. }
    exists e, σ'. split; [|done].
    simpl. rewrite (bind_run _ _ _ _ _ Hrun). by rewrite (bind_raise _ _ _ _ _ Hall).
Qed.

(** X11: if a train image is too small for [quanv] (the images before it
    being fine), the run with [PREPROCESS = True] stops with that
    [IndexError] and writes no file: the tensors computed so far are lost. *)
Theorem preprocess_driver_small_image pre bad post test arrays a h w c σ :
  Forall2 (holds_image σ) pre arrays →
  heap σ !! bad = Some a → wf_ndarray a → shape a = (h, w, c) →
  h < 28 ∨ w < 28 ∨ c = 0 →
  ∃ e σ', preprocess_driver true (pre ++ bad :: post) test σ = (Raise e, σ') ∧
    is_index_error e ∧ files σ' = files σ.
Proof.
  intros Hpre Hbad Hwf Hsh Hsmall.
  destruct (quanv_all_raises pre bad post arrays a h w c σ) as (e & σ' & Hall & He);
    try done.
  pose proof (quanv_all_frame (pre ++ bad :: post) σ) as (_ & Hf & _).
  rewrite Hall in Hf. simpl in Hf.
  exists e, σ'. split; [|done].
  rewrite preprocess_driver_unfold. unfold compute_and_save.
  by rewrite (bind_raise _ _ _ _ _ (bind_raise _ _ _ _ _ Hall)).
Qed.

End MoreGeneric.

(** ** Loading the data set *)

Section DatasetFacts.
Import Exact Dataset.
Local Open Scope R_scope.

Lemma div_255_range x : 0 <= div_255 x <= 1.
Proof.
  unfold div_255. pose proof (Byte.to_N_bounded x) as Hb.
  assert (0 <= IZR (Z.of_N (Byte.to_N x)) <= 255) as [Hlo Hhi].
  { split; [apply IZR_le; lia|]. apply IZR_le. lia. }
  split.
  - apply Rmult_le_pos; [done|]. apply Rlt_le, Rinv_0_lt_compat. lra.
  - apply Rmult_le_reg_r with 255; [lra|]. unfold Rdiv.
    rewrite Rmult_assoc, Rinv_l by lra. lra.
Qed.

(** X13: the prepared data set has [min n N] images, in the order of the raw
    ones.  Image [i] keeps its height and width and gets one channel; its
    pixel at [(y, x, 0)] is the raw byte at [(y, x)] divided by 255, so every
    pixel lies in [0, 1]; a raw 28x28 image becomes an image that [quanv]
    can process. *)
Theorem prepare_images_spec ds n raws i r :
  (i < n)%nat → raws !! i = Some r → wf_raw r →
  length (prepare_images ds n raws) = (n `min` length raws)%nat ∧
  ∃ a, prepare_images ds n raws !! i = Some a ∧
    shape a = ((raw_shape r).1, (raw_shape r).2, 1)%nat ∧ wf_ndarray a ∧
    Forall (λ v, 0 <= v <= 1) (data a) ∧
    (∀ y x b, (y < (raw_shape r).1)%nat → (x < (raw_shape r).2)%nat →
       raw_pixels r !! (y * (raw_shape r).2 + x)%nat = Some b →
       nd_get a y x 0 = Ok (div_255 b)) ∧
    (raw_shape r = (28, 28)%nat → covers_28 a).
Proof.
  intros Hi Hr Hwf. unfold prepare_images, add_channel_axis, normalize, reduce_size.
  split; [by rewrite !length_fmap, length_take|].
  eexists. split.
  { rewrite !list_lookup_fmap, lookup_take_lt by done. rewrite Hr. reflexivity. }
  cbn [shape data float_shape float_pixels]. split; [done|]. split.
  { unfold wf_ndarray. cbn [shape data float_shape float_pixels size_of].
    rewrite length_fmap, Hwf. lia. }
  split.
  { apply Forall_fmap, Forall_forall. intros x _. apply div_255_range. }
  split.
  - intros y x b Hy Hx Hb. unfold nd_get. cbn [shape data float_shape float_pixels].
    rewrite offset_ok, result_bind_Ok by lia. unfold list_getitem.
    replace ((y * (raw_shape r).2 + x) * 1 + 0)%nat
      with (y * (raw_shape r).2 + x)%nat by lia.
    by rewrite list_lookup_fmap, Hb.
  - intros Hs. unfold covers_28. cbn [shape float_shape]. rewrite Hs. simpl. lia.
Qed.

End DatasetFacts.

(** ** The figure of sample images *)

Section PlotFacts.
Context `{QDevice}.

Lemma batch_first_four (images : batch) (n : nat) :
  (∀ k, k < 4 → ∃ a, images !! k = Some a ∧ n ≤ (shape a).2) →
  ∃ a0 a1 a2 a3 rest, images = a0 :: a1 :: a2 :: a3 :: rest ∧
    n ≤ (shape a0).2 ∧ n ≤ (shape a1).2 ∧ n ≤ (shape a2).2 ∧ n ≤ (shape a3).2.
Proof.
  intros Hk.
  destruct (Hk 0 ltac:(lia)) as (a0 & Ha0 & ?). destruct (Hk 1 ltac:(lia)) as (a1 & Ha1 & ?).
  destruct (Hk 2 ltac:(lia)) as (a2 & Ha2 & ?). destruct (Hk 3 ltac:(lia)) as (a3 & Ha3 & ?).
  destruct images as [|b0 [|b1 [|b2 [|b3 rest]]]]; simplify_eq/=.
  by exists a0, a1, a2, a3, rest.
Qed.

(** X14: with at least four train images (of at least one channel) and four
    feature tensors (of at least four channels) the figure is a 5x4 grid.
    Column [k] shows train image [k] in row 0 and channel [c] of tensor [k]
    in row [c + 1]; only column 0 is labelled, "Input" and
    "Output [ch. c]".  The y axis is hidden in columns 1 to 3 of rows 0 to 3
    and stays visible in the whole last row. *)
Theorem plot_samples_spec (train_images q_train_images : batch) :
  (∀ k, k < 4 → ∃ a, train_images !! k = Some a ∧ 1 ≤ (shape a).2) →
  (∀ k, k < 4 → ∃ o, q_train_images !! k = Some o ∧ 4 ≤ (shape o).2) →
  ∃ fig, plot_samples train_images q_train_images = Ok fig ∧
    length fig = 5 ∧ Forall (λ row, length row = 4) fig ∧
    ∀ r k, r < 5 → k < 4 →
      ∃ ax a, get_axes fig r k = Ok ax ∧
        (if r is 0 then train_images else q_train_images) !! k = Some a ∧
        image_shown ax = Some (View a (r - 1)) ∧
        yaxis_visible ax = bool_decide (k = 0 ∨ r = 4) ∧
        ylabel ax =
          (if k is 0
           then (if r is 0 then "Input" else "Output [ch. " +:+ pretty (r - 1) +:+ "]")
           else "").
Proof.
  intros Htrain Hq.
  destruct (batch_first_four _ _ Htrain) as (a0 & a1 & a2 & a3 & rest & -> & ? & ? & ? & ?).
  destruct (batch_first_four _ _ Hq) as (o0 & o1 & o2 & o3 & rest' & -> & ? & ? & ? & ?).
  destruct a0 as [[[? ?] [|?]] ?]; [simpl in *; lia|].
  destruct a1 as [[[? ?] [|?]] ?]; [simpl in *; lia|].
  destruct a2 as [[[? ?] [|?]] ?]; [simpl in *; lia|].
  destruct a3 as [[[? ?] [|?]] ?]; [simpl in *; lia|].
  destruct o0 as [[[? ?] [|[|[|[|?]]]]] ?]; [simpl in *; lia..|].
  destruct o1 as [[[? ?] [|[|[|[|?]]]]] ?]; [simpl in *; lia..|].
  destruct o2 as [[[? ?] [|[|[|[|?]]]]] ?]; [simpl in *; lia..|].
  destruct o3 as [[[? ?] [|[|[|[|?]]]]] ?]; [simpl in *; lia..|].
  eexists. split; [vm_compute; reflexivity|].
  split; [reflexivity|]. split; [by repeat constructor|].
  intros r k Hr Hk.
  destruct r as [|[|[|[|[|?]]]]]; [| | | | |lia];
    (destruct k as [|[|[|[|?]]]]; [| | | |lia]);
    do 2 eexists; (split; [reflexivity|]); (split; [reflexivity|]); by repeat split.
Qed.


End PlotFacts.

(** ** More sample runs *)

Section MoreSampleRuns.
Import Exact Samples Dataset MoreSamples.
Local Open Scope R_scope.

Lemma run_state_holds params h w c :
  (28 ≤ h)%nat → (28 ≤ w)%nat → (1 ≤ c)%nat →
  holds_image (run_state params (black h w c)) 1%positive (black h w c).
Proof.
  intros. split; [apply run_state_image|]. split; [apply uniform_image_wf|].
  by apply black_covers_28.
Qed.

(** Witness of X1: three inputs. *)
Lemma circuit_fn_short_witness :
  circuit_fn (H := sample_device) sample_params [0; 0; 0] = Raise ListIndexError.
Proof. apply (circuit_fn_short (H := sample_device) sample_params [0; 0; 0]). simpl. lia. Defined.

(** Witness of X2: five inputs. *)
Lemma circuit_fn_first_four_witness :
  ∃ e0 e1 e2 e3,
    circuit_fn (H := sample_device) sample_params [0; 1; 0; 1; 7] = Ok [e0; e1; e2; e3] ∧
    circuit_fn (H := sample_device) sample_params (take 4 [0; 1; 0; 1; 7]) =
      Ok [e0; e1; e2; e3].
Proof.
  apply (circuit_fn_first_four (H := sample_device) sample_params [0; 1; 0; 1; 7]).
  simpl. lia.
Defined.

(** Witness of X3: the patch at (0, 0) of a black image and the patch at
    (4, 6) of the image whose last pixel is white. *)
Lemma quanv_same_patch_same_cell_witness :
  ∃ out1 σ1' o1 out2 σ2' o2,
    quanv 1%positive (run_state sample_params (black 28 28 1)) = (Ok out1, σ1') ∧
    heap σ1' !! out1 = Some o1 ∧
    quanv 1%positive (run_state sample_params black_but_last) = (Ok out2, σ2') ∧
    heap σ2' !! out2 = Some o2 ∧
    ∀ c, (c < 4)%nat →
      ∃ v, nd_get o1 (0 / 2) (0 / 2) c = Ok v ∧ nd_get o2 (4 / 2) (6 / 2) c = Ok v.
Proof.
  apply (quanv_same_patch_same_cell
           (run_state sample_params (black 28 28 1))
           (run_state sample_params black_but_last)
           1%positive 1%positive (black 28 28 1) black_but_last 0 0 4 6);
    [split; [reflexivity|split; [reflexivity|unfold covers_28; simpl; lia]]
    |split; [reflexivity|split; [reflexivity|unfold covers_28; simpl; lia]]
    |reflexivity|lia|lia|lia|lia|reflexivity|reflexivity|reflexivity|reflexivity|].
  intros dj dk Hdj Hdk.
  destruct dj as [|[|?]]; [| |lia]; (destruct dk as [|[|?]]; [| |lia]); reflexivity.
Defined.

(** Witness of X4. *)
Lemma quanv_returns_new_object_witness :
  ∃ out1 σ1 out2 σ2,
    quanv 1%positive (run_state sample_params (black 28 28 1)) = (Ok out1, σ1) ∧
    heap (run_state sample_params (black 28 28 1)) !! out1 = None ∧
    out1 ≠ 1%positive ∧
    dom (heap σ1) = {[out1]} ∪ dom (heap (run_state sample_params (black 28 28 1))) ∧
    quanv 1%positive σ1 = (Ok out2, σ2) ∧ out2 ≠ out1 ∧ out2 ≠ 1%positive ∧
    dom (heap σ2) = {[out2]} ∪ dom (heap σ1).
Proof.
  apply (quanv_returns_new_object (run_state sample_params (black 28 28 1))
           1%positive (black 28 28 1)).
  split; [reflexivity|split; [reflexivity|unfold covers_28; simpl; lia]].
Defined.

(** Witness of X5: a 10x20x1 image. *)
Lemma quanv_too_narrow_witness :
  ∃ σ', quanv 1%positive (run_state sample_params (black 10 20 1)) =
          (Raise (IndexError 20 1 20), σ').
Proof.
  apply (quanv_too_narrow (run_state sample_params (black 10 20 1))
           1%positive (black 10 20 1) 10 20 1);
    [reflexivity|reflexivity|reflexivity|lia|lia|lia].
Defined.

(** Witness of X6: a 10x28x1 image. *)
Lemma quanv_too_short_witness :
  ∃ σ', quanv 1%positive (run_state sample_params (black 10 28 1)) =
          (Raise (IndexError 10 0 10), σ').
Proof.
  apply (quanv_too_short (run_state sample_params (black 10 28 1))
           1%positive (black 10 28 1) 10 28 1);
    [reflexivity|reflexivity|reflexivity|lia|lia|lia].
Defined.

(** Witness of X7: a 28x28x0 image. *)
Lemma quanv_no_channel_witness :
  ∃ σ', quanv 1%positive (run_state sample_params (black 28 28 0)) =
          (Raise (IndexError 0 2 0), σ').
Proof.
  apply (quanv_no_channel (run_state sample_params (black 28 28 0))
           1%positive (black 28 28 0) 28 28);
    [reflexivity|reflexivity|reflexivity|lia|lia].
Defined.

(** Witness of X8: one train image and one test image. *)
Lemma preprocess_driver_run_witness :
  ∃ q_train_images q_test_images σ',
    preprocess_driver true [1%positive] [1%positive]
      (run_state sample_params (black 28 28 1)) =
      (Ok (q_train_images, q_test_images), σ') ∧
    Forall2 (quanv_of sample_params) [black 28 28 1] q_train_images ∧
    Forall2 (quanv_of sample_params) [black 28 28 1] q_test_images ∧
    length q_train_images = 1%nat ∧ length q_test_images = 1%nat ∧
    files σ' = <[test_file := q_test_images]> (<[train_file := q_train_images]> ∅) ∧
    rand_params σ' = sample_params ∧
    ∀ l, is_Some (heap (run_state sample_params (black 28 28 1)) !! l) →
      heap σ' !! l = heap (run_state sample_params (black 28 28 1)) !! l.
Proof.
  apply (preprocess_driver_run [1%positive] [1%positive]
           [black 28 28 1] [black 28 28 1] (run_state sample_params (black 28 28 1)));
    (constructor; [|constructor]);
    (split; [reflexivity|split; [reflexivity|unfold covers_28; simpl; lia]]).
Defined.

(** Witness of X10: a run that fails on a 4x4 image. *)
Lemma preprocess_driver_index_error_keeps_files_witness :
  ∃ e σ',
    preprocess_driver true [1%positive] [] (run_state sample_params (black 4 4 1)) =
      (Raise e, σ') ∧
    is_index_error e ∧
    files σ' = files (run_state sample_params (black 4 4 1)).
Proof.
  destruct (quanv_all_raises [] 1%positive [] [] (black 4 4 1) 4 4 1
    (run_state sample_params (black 4 4 1))) as (e & σ' & Hall & Hidx);
    [constructor|apply run_state_image|apply uniform_image_wf|reflexivity|lia|].
  assert (preprocess_driver true [1%positive] [] (run_state sample_params (black 4 4 1))
    = (Raise e, σ')) as Hrun.
  { rewrite preprocess_driver_unfold. unfold compute_and_save.
    by rewrite (bind_raise _ _ _ _ _ (bind_raise _ _ _ _ _ Hall)). }
  exists e, σ'. split; [exact Hrun|]. split; [exact Hidx|].
  exact (preprocess_driver_index_error_keeps_files _ _ _ _ _ _ Hrun Hidx).
Defined.

(** Witness of X11: the only train image is 4x4. *)
Lemma preprocess_driver_small_image_witness :
  ∃ e σ',
    preprocess_driver true ([] ++ 1%positive :: []) []
      (run_state sample_params (black 4 4 1)) = (Raise e, σ') ∧
    is_index_error e ∧ files σ' = files (run_state sample_params (black 4 4 1)).
Proof.
  apply (preprocess_driver_small_image [] 1%positive [] [] [] (black 4 4 1) 4 4 1
           (run_state sample_params (black 4 4 1)));
    [constructor|reflexivity|reflexivity|reflexivity|lia].
Defined.

(** Witness of X13: two white raw images, of which one is kept. *)
Lemma prepare_images_spec_witness :
  length (prepare_images sample_draws 1 [white_raw; white_raw]) =
    (1 `min` length [white_raw; white_raw])%nat ∧
  ∃ a, prepare_images sample_draws 1 [white_raw; white_raw] !! 0%nat = Some a ∧
    shape a = ((raw_shape white_raw).1, (raw_shape white_raw).2, 1)%nat ∧
    wf_ndarray a ∧ Forall (λ v, 0 <= v <= 1) (data a) ∧
    (∀ y x b, (y < (raw_shape white_raw).1)%nat → (x < (raw_shape white_raw).2)%nat →
       raw_pixels white_raw !! (y * (raw_shape white_raw).2 + x)%nat = Some b →
       nd_get a y x 0 = Ok (div_255 b)) ∧
    (raw_shape white_raw = (28, 28)%nat → covers_28 a).
Proof.
  apply (prepare_images_spec sample_draws 1 [white_raw; white_raw] 0 white_raw);
    [lia|reflexivity|reflexivity].
Defined.

(** Witness of X14: four black images and four blank tensors. *)
Lemma plot_samples_spec_witness :
  ∃ fig, plot_samples (replicate 4 (black 28 28 1)) (replicate 4 blank_tensor) = Ok fig ∧
    length fig = 5%nat ∧ Forall (λ row, length row = 4%nat) fig ∧
    ∀ r k, (r < 5)%nat → (k < 4)%nat →
      ∃ ax a, get_axes fig r k = Ok ax ∧
        (if r is 0%nat then replicate 4 (black 28 28 1) else replicate 4 blank_tensor)
          !! k = Some a ∧
        image_shown ax = Some (View a (r - 1)) ∧
        yaxis_visible ax = bool_decide (k = 0%nat ∨ r = 4%nat) ∧
        ylabel ax =
          (if k is 0%nat
           then (if r is 0%nat then "Input"
                 else "Output [ch. " +:+ pretty (r - 1)%nat +:+ "]")
           else "").
Proof.
  apply (plot_samples_spec (replicate 4 (black 28 28 1)) (replicate 4 blank_tensor)).
  - intros k Hk. exists (black 28 28 1).
    split; [destruct k as [|[|[|[|?]]]]; (reflexivity || lia)|simpl; lia].
  - intros k Hk. exists blank_tensor.
    split; [destruct k as [|[|[|[|?]]]]; (reflexivity || lia)|simpl; lia].
Defined.


End MoreSampleRuns.
